(** * tcmonitor-ebpf: a shallow embedding of [main.go]

    The monitor attaches an fexit probe to a running TC program and prints,
    once per ticker tick, the cumulative count and the per-second rate of each
    TC verdict.  This file embeds [getFuncName], [lookupAndPrintStats] and
    [main] and settles the properties stated about them.

    Modelling choices:
    - [uint64] and [int64] values are [Z] with the wrap-around written out;
    - [float64] is [spec_float] at precision 53 and maximal exponent 1024,
      with the IEEE 754 operations of [SpecFloat] (round to nearest even);
    - Go maps are [gmap]s, a missing key reads as the zero value;
    - the kernel, the clock and the signals are an explicit environment;
    - everything the process does to the outside world is a trace of events,
      and [defer] is an explicit stack that only a [return] from [main]
      unwinds ([log.Fatal] calls [os.Exit], which does not). *)

From Stdlib Require Import ZArith Lia Bool List.
From Stdlib Require Import Floats.SpecFloat.
From stdpp Require Import base option list gmap strings.

Local Open Scope string_scope.
Local Open Scope list_scope.
Local Open Scope Z_scope.

(** ** Results of fallible calls *)

Inductive result (A : Type) : Type :=
| Ok (a : A)
| Err (msg : string).
Arguments Ok {A} a.
Arguments Err {A} msg.

(** ** Machine integers *)

Definition wrap_uint64 (z : Z) : Z := z mod 2 ^ 64.
Definition wrap_int64 (z : Z) : Z := (z + 2 ^ 63) mod 2 ^ 64 - 2 ^ 63.
Definition is_int64 (z : Z) : Prop := - 2 ^ 63 <= z < 2 ^ 63.

(** ** float64 *)

Module F64.
Definition prec : Z := 53.
Definition emax : Z := 1024.

Definition float64 : Type := spec_float.

(** The conversion [float64(n)] of an integer, rounded to nearest even. *)
Definition of_Z (n : Z) : float64 := binary_normalize prec emax n 0 false.

Definition zero : float64 := S754_zero false.
Definition add : float64 -> float64 -> float64 := SFadd prec emax.
Definition div : float64 -> float64 -> float64 := SFdiv prec emax.
Definition eqb : float64 -> float64 -> bool := SFeqb.
Definition ltb : float64 -> float64 -> bool := SFltb.
Definition leb : float64 -> float64 -> bool := SFleb.

(** The sign bit; [-0.0] has it set and prints as [-0.00]. *)
Definition signbit (x : float64) : bool :=
  match x with
  | S754_zero s | S754_infinity s | S754_finite s _ _ => s
  | S754_nan => false
  end.

Definition is_nan (x : float64) : bool :=
  match x with S754_nan => true | _ => false end.

(** [x] is a number (not NaN) that is not negative and is not [-0.0]. *)
Definition nonneg (x : float64) : bool := negb (is_nan x) && negb (signbit x).

(** [x] is a number strictly above zero (possibly [+Inf]). *)
Definition positive (x : float64) : bool := ltb zero x.

Definition is_finite (x : float64) : bool :=
  match x with S754_zero _ | S754_finite _ _ _ => true | _ => false end.

(** A range certificate: [x] is finite and strictly positive, its exponent
    is at least [lo] and its magnitude (digits of the mantissa plus
    exponent) at most [hi]. *)
Definition bounded_pos (lo hi : Z) (x : float64) : Prop :=
  exists m e, x = S754_finite false m e /\ lo <= e /\ Zdigits2 (Z.pos m) + e <= hi.
End F64.
Export F64(float64).

(** ** Package [time]: the monotonic clock, [Time.Sub] and [Duration.Seconds] *)

Module time.
(** A [Time] obtained from [time.Now()] carries a monotonic reading in
    nanoseconds ([int64]); [Sub] between two such values uses only it. *)
Definition Time : Type := Z.
Definition Duration : Type := Z.

Definition Second : Duration := 1000000000.
Definition minDuration : Duration := - 2 ^ 63.
Definition maxDuration : Duration := 2 ^ 63 - 1.

(** [d := Duration(t - u)], saturated when the subtraction overflows. *)
Definition subMono (t u : Z) : Duration :=
  let d := wrap_int64 (t - u) in
  if (d <? 0) && (t >? u) then maxDuration
  else if (d >? 0) && (t <? u) then minDuration
  else d.

Definition Sub (t u : Time) : Duration := subMono t u.

(** [sec := d / Second; nsec := d % Second;
    return float64(sec) + float64(nsec)/1e9] *)
Definition Seconds (d : Duration) : float64 :=
  let sec := Z.quot d Second in
  let nsec := Z.rem d Second in
  F64.add (F64.of_Z sec) (F64.div (F64.of_Z nsec) (F64.of_Z 1000000000)).
End time.

(** ** The verdict table *)

Definition tcKeysList : list (string * Z) :=
  [ ("TC_ACT_OK", 0); ("TC_ACT_RECLASSIFY", 1); ("TC_ACT_SHOT", 2);
    ("TC_ACT_PIPE", 3); ("TC_ACT_STOLEN", 4); ("TC_ACT_QUEUED", 5);
    ("TC_ACT_REPEAT", 6); ("TC_ACT_REDIRECT", 7); ("TC_ACT_TRAP", 8) ].

Definition tcKeys : gmap string Z := list_to_map tcKeysList.

Definition tcKeyOrder : list string :=
  [ "TC_ACT_OK"; "TC_ACT_RECLASSIFY"; "TC_ACT_SHOT"; "TC_ACT_PIPE";
    "TC_ACT_STOLEN"; "TC_ACT_QUEUED"; "TC_ACT_REPEAT"; "TC_ACT_REDIRECT";
    "TC_ACT_TRAP" ].

(** Reading a Go map: a missing key gives the zero value. *)
Definition map_get (m : gmap string Z) (k : string) : Z := default 0 (m !! k).

(** ** The rate engine: [lookupAndPrintStats] *)

(** The kernel counter table as one tick sees it: [Lookup] of a [uint32] key
    gives the [uint64] count or an error. *)
Definition Map : Type := Z -> result Z.

(** What one call writes: standard output and the logger. *)
Inductive Output : Type :=
| Println (s : string)
    (* fmt.Println / fmt.Print / fmt.Printf of a fixed text *)
| PrintStat (action : string) (value : Z) (rate : float64)
    (* fmt.Printf("%s: %d (Rate: %.2f/s)\n", action, value, rate) *)
| LogLookupError (action : string) (err : string).
    (* log.Printf("Error looking up %s: %v", action, err) *)

Definition newline : Ascii.ascii := Ascii.ascii_of_nat 10.
Definition header : string := String newline "TC Actions:".

(** One iteration of [for _, action := range tcKeyOrder]. *)
Definition sampleAction (ebpfMap : Map) (deltaTime : float64)
    (acc : list Output * gmap string Z) (action : string)
    : list Output * gmap string Z :=
  let key := map_get tcKeys action in
  match ebpfMap key with
  | Err e => (acc.1 ++ [LogLookupError action e], acc.2)
  | Ok value =>
      let prev := map_get acc.2 action in
      let prevValues := <[action := value]> acc.2 in
      let rate := F64.div (F64.of_Z (wrap_uint64 (value - prev))) deltaTime in
      (acc.1 ++ [PrintStat action value rate], prevValues)
  end.

Definition sampleLoop (ebpfMap : Map) (deltaTime : float64)
    (actions : list string) (acc : list Output * gmap string Z)
    : list Output * gmap string Z :=
  fold_left (sampleAction ebpfMap deltaTime) actions acc.

(** The state the caller owns: [prevValues] and [*prevTime]. *)
Record RateState : Type := mkRateState {
  prevValues : gmap string Z;
  prevTime : time.Time
}.

(** [now] is what [time.Now()] returns inside the call. *)
Definition lookupAndPrintStats (ebpfMap : Map) (st : RateState) (now : time.Time)
    : list Output * RateState :=
  let out := [Println header] in
  let deltaTime := time.Seconds (time.Sub now (prevTime st)) in
  if F64.eqb deltaTime F64.zero then (out, st)
  else
    let r := sampleLoop ebpfMap deltaTime tcKeyOrder (out, prevValues st) in
    (r.1, mkRateState r.2 now).

(** The (name, count, rate) entries a call displays, in the order printed:
    the snapshot of that tick. *)
Definition stat (o : Output) : option (string * Z * float64) :=
  match o with
  | PrintStat action value rate => Some (action, value, rate)
  | _ => None
  end.

Definition snapshot (out : list Output) : list (string * Z * float64) :=
  omap stat out.

Definition names (out : list Output) : list string :=
  (fun e => e.1.1) <$> snapshot out.

(** The count and rate displayed for [action], if a line for it was printed. *)
Fixpoint displayed (action : string) (out : list Output) : option (Z * float64) :=
  match out with
  | [] => None
  | PrintStat a value rate :: rest =>
      if String.eqb a action then Some (value, rate) else displayed action rest
  | _ :: rest => displayed action rest
  end.

(** The per-iteration output as a function of the state at the start of the
    call; [sampleLoop] is shown to agree with it. *)
Definition sampleOutput (ebpfMap : Map) (deltaTime : float64)
    (prev : gmap string Z) (action : string) : Output :=
  match ebpfMap (map_get tcKeys action) with
  | Err e => LogLookupError action e
  | Ok value =>
      PrintStat action value
        (F64.div (F64.of_Z (wrap_uint64 (value - map_get prev action))) deltaTime)
  end.

Definition lookup_ok (ebpfMap : Map) (action : string) : bool :=
  match ebpfMap (map_get tcKeys action) with Ok _ => true | Err _ => false end.

(** ** Package [ebpf]: what [getFuncName] reads from a program handle *)

Module ebpf.
Definition ProgramType : Type := Z.
Definition UnspecifiedProgram : ProgramType := 0.
Definition SocketFilter : ProgramType := 1.
Definition Kprobe : ProgramType := 2.
Definition SchedCLS : ProgramType := 3.
Definition SchedACT : ProgramType := 4.
Definition TracePoint : ProgramType := 5.
Definition XDP : ProgramType := 6.

(** [asm.Instruction]: [Symbol()] is the empty string when the instruction
    carries no symbol. *)
Record Instruction : Type := mkInstruction { Symbol : string }.

(** [ProgramInfo]: [BTFID()] returns [(id, ok)], [Instructions()] returns
    [(insns, err)]. *)
Record ProgramInfo : Type := mkProgramInfo {
  Type_ : ProgramType;
  BTFID : option Z;
  Instructions : result (list Instruction)
}.

(** A program handle: [Info()] returns [(info, err)]. *)
Record Program : Type := mkProgram { Info : result ProgramInfo }.
End ebpf.

Definition errNotTC : string := "program is not a TC program".
Definition errNoBTF : string := "program does not have BTF ID".
Definition errNoEntry : string := "no entry function found in program".

(** [for _, insn := range insns { if sym := insn.Symbol(); sym != "" { return sym, nil } }]
    followed by the final [return "", fmt.Errorf(...)]. *)
Fixpoint scanSymbols (insns : list ebpf.Instruction) : result string :=
  match insns with
  | [] => Err errNoEntry
  | insn :: rest =>
      let sym := ebpf.Symbol insn in
      if String.eqb sym "" then scanSymbols rest else Ok sym
  end.

Definition getFuncName (prog : ebpf.Program) : result string :=
  match ebpf.Info prog with
  | Err e => Err ("failed to get program info: " +:+ e)
  | Ok info =>
      if negb (ebpf.Type_ info =? ebpf.SchedCLS) && negb (ebpf.Type_ info =? ebpf.SchedACT)
      then Err errNotTC
      else
        match ebpf.BTFID info with
        | None => Err errNoBTF
        | Some _ =>
            match ebpf.Instructions info with
            | Err e => Err ("failed to get program instructions: " +:+ e)
            | Ok insns => scanSymbols insns
            end
        end
  end.

(** The first instruction in stream order that carries a symbol, as the
    specification words it. *)
Definition first_symbol_carrier (insns : list ebpf.Instruction) (sym : string) : Prop :=
  exists pre insn post,
    insns = pre ++ insn :: post /\
    Forall (fun i => ebpf.Symbol i = "") pre /\
    ebpf.Symbol insn = sym /\ sym <> "".

(** ** The session: [main] *)

(** What the process does to the outside world, in order. *)
Inductive Event : Type :=
| EvNotifyContext                      (* signal.NotifyContext(...) *)
| EvRemoveMemlock                      (* rlimit.RemoveMemlock() *)
| EvLoadSpec                           (* loadTcmonitor() *)
| EvNewProgramFromID (id : Z)          (* ebpf.NewProgramFromID(id) *)
| EvSetAttachTarget (funcName : string) (* tcFexit.AttachTarget, tcFexit.AttachTo *)
| EvLoadAndAssign                      (* spec.LoadAndAssign(&obj, nil) *)
| EvAttachTracing                      (* link.AttachTracing(...) *)
| EvPrintTracing (id : Z)              (* fmt.Printf("Tracing TC Program with ID %d...\n") *)
| EvNewTicker                          (* time.NewTicker(1 * time.Second) *)
| EvClearScreen                        (* fmt.Print("\033[H\033[J") *)
| EvOut (o : Output)                   (* output of lookupAndPrintStats, "Exiting..." *)
| EvLogFatal (msg : string)            (* log.Fatal / log.Fatalf, then os.Exit(1) *)
| EvStop                               (* deferred stop() *)
| EvProgClose                          (* deferred tcProg.Close() *)
| EvObjClose                           (* deferred obj.Close() *)
| EvLinkClose                          (* deferred tcfexit.Close() *)
| EvTickerStop.                        (* deferred ticker.Stop() *)

(** The running process: the trace so far and the stack of deferred calls,
    most recent first. *)
Record Proc : Type := mkProc {
  trace : list Event;
  deferred : list Event
}.

Inductive Res (A : Type) : Type :=
| Val (a : A)           (* the statement completed *)
| Exited (code : Z)     (* os.Exit(code): deferred calls do not run *)
| Blocked.              (* waiting in [select] with nothing scheduled *)
Arguments Val {A} a.
Arguments Exited {A} code.
Arguments Blocked {A}.

Definition M (A : Type) : Type := Proc -> Res A * Proc.

#[global] Instance M_ret : MRet M := fun A a p => (Val a, p).

#[global] Instance M_bind : MBind M := fun A B f m p =>
  match m p with
  | (Val a, p') => f a p'
  | (Exited c, p') => (Exited c, p')
  | (Blocked, p') => (Blocked, p')
  end.

Definition emit (e : Event) : M unit :=
  fun p => (Val tt, mkProc (trace p ++ [e]) (deferred p)).

Definition emitAll (es : list Event) : M unit :=
  fun p => (Val tt, mkProc (trace p ++ es) (deferred p)).

Definition defer (e : Event) : M unit :=
  fun p => (Val tt, mkProc (trace p) (e :: deferred p)).

Definition logFatal {A : Type} (msg : string) : M A :=
  fun p => (Exited 1, mkProc (trace p ++ [EvLogFatal msg]) (deferred p)).

Definition block {A : Type} : M A := fun p => (Blocked, p).

(** Which case one execution of the [select] statement takes. *)
Inductive SelectCase : Type :=
| CtxDone                                       (* case <-ctx.Done() *)
| TickerC (now : time.Time) (ebpfMap : Map).    (* case <-ticker.C *)

Inductive LoadResult : Type :=
| Loaded
| LoadFailed (err : string) (verifierLog : option string).

(** The environment of one run: the flag, the outcome of each kernel call,
    the clock at start-up and the schedule of the loop's [select]. *)
Record Env : Type := mkEnv {
  tcProgID : Z;
  RemoveMemlock : result unit;
  loadTcmonitor : result unit;
  NewProgramFromID : Z -> result ebpf.Program;
  LoadAndAssign : ebpf.Program -> string -> LoadResult;
  AttachTracing : result unit;
  startTime : time.Time;
  selects : list SelectCase
}.

(** The texts of the fatal messages are kept up to number formatting: the
    program id that some of them print is left out. *)
Definition nl : string := String newline "".
Definition exiting : string := String newline "Exiting...".

(** [for { select { case <-ctx.Done(): ...; return  case <-ticker.C: ... } }] *)
Fixpoint pollLoop (sel : list SelectCase) (st : RateState) : M unit :=
  match sel with
  | [] => block
  | CtxDone :: _ => emit (EvOut (Println exiting))
  | TickerC now ebpfMap :: rest =>
      emit EvClearScreen ;;
      emitAll (EvOut <$> (lookupAndPrintStats ebpfMap st now).1) ;;
      pollLoop rest (lookupAndPrintStats ebpfMap st now).2
  end.

Definition main (env : Env) : M unit :=
  if tcProgID env =? 0 then logFatal "You need to specify a valid TC Program ID." else
  emit EvNotifyContext ;;
  defer EvStop ;;
  emit EvRemoveMemlock ;;
  match RemoveMemlock env with
  | Err e => logFatal ("Failed to remove rlimit memlock: " +:+ e)
  | Ok _ =>
  emit EvLoadSpec ;;
  match loadTcmonitor env with
  | Err e => logFatal ("Failed to load tcmonitor BPF spec: " +:+ e)
  | Ok _ =>
  emit (EvNewProgramFromID (tcProgID env)) ;;
  match NewProgramFromID env (tcProgID env) with
  | Err e => logFatal ("Failed to load TC program: " +:+ e)
  | Ok tcProg =>
  defer EvProgClose ;;
  match getFuncName tcProg with
  | Err e => logFatal ("Failed to get function name: " +:+ e)
  | Ok tcFuncName =>
  emit (EvSetAttachTarget tcFuncName) ;;
  emit EvLoadAndAssign ;;
  match LoadAndAssign env tcProg tcFuncName with
  | LoadFailed e (Some ve) =>
      logFatal ("Failed to load BPF object: " +:+ e +:+ nl +:+ "Verifier log:" +:+ nl +:+ ve)
  | LoadFailed e None => logFatal ("Failed to load BPF object: " +:+ e)
  | Loaded =>
  defer EvObjClose ;;
  emit EvAttachTracing ;;
  match AttachTracing env with
  | Err e => logFatal ("Failed to attach fexit program: " +:+ e)
  | Ok _ =>
  defer EvLinkClose ;;
  emit (EvPrintTracing (tcProgID env)) ;;
  emit EvNewTicker ;;
  defer EvTickerStop ;;
  pollLoop (selects env) (mkRateState ∅ (startTime env))
  end end end end end end.

(** How the process ends: [main] returning runs the deferred calls, last
    deferred first, and exits with code 0; [os.Exit] runs none. *)
Inductive Outcome : Type :=
| Exit (code : Z)
| Running.

Definition run (m : M unit) : list Event * Outcome :=
  match m (mkProc [] []) with
  | (Val _, p) => (trace p ++ deferred p, Exit 0)
  | (Exited c, p) => (trace p, Exit c)
  | (Blocked, p) => (trace p, Running)
  end.

Definition isProgClose (e : Event) : bool :=
  match e with EvProgClose => true | _ => false end.
Definition isObjClose (e : Event) : bool :=
  match e with EvObjClose => true | _ => false end.
Definition isLinkClose (e : Event) : bool :=
  match e with EvLinkClose => true | _ => false end.
Definition isLoad (e : Event) : bool :=
  match e with EvLoadAndAssign => true | _ => false end.
Definition isAttach (e : Event) : bool :=
  match e with EvAttachTracing => true | _ => false end.

(** How many times an event of a kind occurs in a trace. *)
Definition times (f : Event -> bool) (tr : list Event) : nat :=
  length (List.filter f tr).

(** The events the loop itself produces. *)
Definition isLoopEvent (e : Event) : bool :=
  match e with EvClearScreen | EvOut _ => true | _ => false end.

Definition isTick (c : SelectCase) : bool :=
  match c with TickerC _ _ => true | CtxDone => false end.

(** ** Concrete inputs used as witnesses and counterexamples *)

Module Examples.
(** A counter table in which every key is readable: key [k] holds
    [base + k]. *)
Definition table (base : Z) : Map := fun k => Ok (base + k).

(** The same table, except that the lookup of key [bad] fails. *)
Definition table_failing (bad base : Z) : Map :=
  fun k => if k =? bad then Err "lookup failed" else Ok (base + k).

(** Accept count [accept], every other count zero. *)
Definition table_accept (accept : Z) : Map :=
  fun k => if k =? 0 then Ok accept else Ok 0.

Definition second : Z := 1000000000.

(** The state [main] starts the loop with, the clock reading 0. *)
Definition st0 : RateState := mkRateState ∅ 0.

(** A first tick one second after start, all reads succeeding. *)
Definition tick1 : list Output * RateState :=
  lookupAndPrintStats (table 10) st0 second.

(** A second tick one second later on which the read of key 7
    (TC_ACT_REDIRECT) fails. *)
Definition tick2_failing : list Output * RateState :=
  lookupAndPrintStats (table_failing 7 20) tick1.2 (2 * second).

(** A second tick at the very instant of the first. *)
Definition tick2_same_instant : list Output * RateState :=
  lookupAndPrintStats (table 20) tick1.2 second.


Definition clsInsns : list ebpf.Instruction :=
  [ ebpf.mkInstruction ""; ebpf.mkInstruction "cls_foo"; ebpf.mkInstruction "helper" ].

(** A classifier with type metadata whose second instruction carries the
    symbol [cls_foo]. *)
Definition clsProg : ebpf.Program :=
  ebpf.mkProgram (Ok (ebpf.mkProgramInfo ebpf.SchedCLS (Some 12) (Ok clsInsns))).

(** An XDP program without type metadata and without symbols. *)
Definition xdpProg : ebpf.Program :=
  ebpf.mkProgram (Ok (ebpf.mkProgramInfo ebpf.XDP None (Ok []))).

(** A run in which every start-up call succeeds on program [prog]. *)
Definition env_of (id : Z) (prog : ebpf.Program) (sel : list SelectCase) : Env :=
  mkEnv id (Ok tt) (Ok tt) (fun _ => Ok prog) (fun _ _ => Loaded) (Ok tt) 0 sel.
End Examples.

(** ** Vocabulary for whole runs *)

Definition isClearScreen (e : Event) : bool :=
  match e with EvClearScreen => true | _ => false end.
Definition isHeader (e : Event) : bool :=
  match e with EvOut (Println s) => String.eqb s header | _ => false end.
Definition isNewTicker (e : Event) : bool :=
  match e with EvNewTicker => true | _ => false end.
Definition isOut (e : Event) : bool :=
  match e with EvOut _ => true | _ => false end.

(** The five calls [main] defers. *)
Definition isDeferredCall (e : Event) : bool :=
  match e with
  | EvStop | EvProgClose | EvObjClose | EvLinkClose | EvTickerStop => true
  | _ => false
  end.

(** A printed rate is a finite number that is not negative. *)
Definition okRate (o : Output) : bool :=
  match o with
  | PrintStat _ _ rate => F64.nonneg rate && F64.is_finite rate
  | _ => true
  end.

Definition okEvent (e : Event) : bool :=
  match e with EvOut o => okRate o | _ => true end.

(** The (name, error) pairs a call logs, in the order logged. *)
Definition logError (o : Output) : option (string * string) :=
  match o with
  | LogLookupError action err => Some (action, err)
  | _ => None
  end.

Definition logged (out : list Output) : list (string * string) :=
  omap logError out.

(** The error of a failed read of [action], if it fails. *)
Definition lookup_err (ebpfMap : Map) (action : string) : option (string * string) :=
  match ebpfMap (map_get tcKeys action) with
  | Err e => Some (action, e)
  | Ok _ => None
  end.

(** The clock readings of the ticks of a schedule never go back, starting
    from [last]: what a monotonic clock guarantees. *)
Fixpoint clockMonotone (last : time.Time) (sel : list SelectCase) : Prop :=
  match sel with
  | [] => True
  | CtxDone :: rest => clockMonotone last rest
  | TickerC now _ :: rest => last <= now /\ clockMonotone now rest
  end.

(** Every start-up call of [main] succeeds, on program [prog] with entry
    point [funcName]. *)
Definition startupOk (env : Env) (prog : ebpf.Program) (funcName : string) : Prop :=
  tcProgID env <> 0 /\
  RemoveMemlock env = Ok tt /\ loadTcmonitor env = Ok tt /\
  NewProgramFromID env (tcProgID env) = Ok prog /\
  getFuncName prog = Ok funcName /\
  LoadAndAssign env prog funcName = Loaded /\
  AttachTracing env = Ok tt.

(** The same environment with another schedule for the loop. *)
Definition with_selects (env : Env) (sel : list SelectCase) : Env :=
  mkEnv (tcProgID env) (RemoveMemlock env) (loadTcmonitor env) (NewProgramFromID env)
        (LoadAndAssign env) (AttachTracing env) (startTime env) sel.

(** ** The counts-only monitor

    The repository's second entry point prints the raw counts and treats a
    failed lookup as fatal:
    [func lookupAndPrintStats(ebpfMap, keys, keyOrder, title)]. *)

Module Raw.
Inductive Output : Type :=
| Println (s : string)                     (* fmt.Println("\n" + title + ":") *)
| PrintCount (action : string) (value : Z) (* fmt.Printf("%s: %d\n", action, value) *)
| LogFatal (err : string).                 (* log.Fatal(err), then os.Exit(1) *)

(** [for _, action := range keyOrder { ... }] *)
Fixpoint printCounts (ebpfMap : Map) (keys : gmap string Z) (keyOrder : list string)
    : list Output * Res unit :=
  match keyOrder with
  | [] => ([], Val tt)
  | action :: rest =>
      match ebpfMap (map_get keys action) with
      | Err e => ([LogFatal e], Exited 1)
      | Ok value =>
          (PrintCount action value :: (printCounts ebpfMap keys rest).1,
           (printCounts ebpfMap keys rest).2)
      end
  end.

Definition lookupAndPrintStats (ebpfMap : Map) (keys : gmap string Z)
    (keyOrder : list string) (title : string) : list Output * Res unit :=
  (Println (nl +:+ title +:+ ":") :: (printCounts ebpfMap keys keyOrder).1,
   (printCounts ebpfMap keys keyOrder).2).

(** The (name, count) pairs printed. *)
Definition count (o : Output) : option (string * Z) :=
  match o with PrintCount action value => Some (action, value) | _ => None end.

Definition counts (out : list Output) : list (string * Z) := omap count out.
End Raw.

(** * Properties *)

(** ** float64: digit counts, rounding, and ranges of the operations *)

Section Digits.
Lemma digits2_pos_bounds (p : positive) :
  2 ^ (Z.pos (digits2_pos p) - 1) <= Z.pos p < 2 ^ Z.pos (digits2_pos p).
Proof.
  induction p as [p IH | p IH |]; simpl digits2_pos.
  - rewrite Pos2Z.inj_succ. replace (Z.succ (Z.pos (digits2_pos p)) - 1) with (Z.succ (Z.pos (digits2_pos p) - 1)) by lia.
    rewrite !Z.pow_succ_r by lia. lia.
  - rewrite Pos2Z.inj_succ. replace (Z.succ (Z.pos (digits2_pos p)) - 1) with (Z.succ (Z.pos (digits2_pos p) - 1)) by lia.
    rewrite !Z.pow_succ_r by lia. lia.
  - simpl. lia.
Qed.

Lemma Zdigits2_bounds (m : Z) :
  0 < m -> 2 ^ (Zdigits2 m - 1) <= m < 2 ^ Zdigits2 m.
Proof. destruct m as [|p|p]; try lia. intros _. apply digits2_pos_bounds. Qed.

Lemma Zdigits2_pos (m : Z) : 0 < m -> 0 < Zdigits2 m.
Proof. destruct m; simpl; lia. Qed.

Lemma Zdigits2_le_of_lt_pow (m k : Z) : 0 < m -> m < 2 ^ k -> Zdigits2 m <= k.
Proof.
  intros Hm Hk. destruct (Z_le_gt_dec (Zdigits2 m) k) as [|Hgt]; [done|].
  pose proof (Zdigits2_bounds m Hm) as [Hlo _].
  assert (0 <= k) by (destruct (Z_le_gt_dec 0 k); [done|]; rewrite Z.pow_neg_r in Hk; lia).
  assert (2 ^ k <= 2 ^ (Zdigits2 m - 1)) by (apply Z.pow_le_mono_r; lia).
  lia.
Qed.

Lemma Zdigits2_gt_of_le_pow (m k : Z) : 0 <= k -> 2 ^ k <= m -> k < Zdigits2 m.
Proof.
  intros Hk Hm. assert (0 < m) by (pose proof (Z.pow_pos_nonneg 2 k); lia).
  destruct (Z_lt_ge_dec k (Zdigits2 m)) as [|Hge]; [done|].
  pose proof (Zdigits2_bounds m H) as [_ Hhi].
  assert (2 ^ Zdigits2 m <= 2 ^ k) by (apply Z.pow_le_mono_r; lia).
  lia.
Qed.
End Digits.

Section Rounding.
Lemma shr_1_m (mrs : shr_record) : 0 <= shr_m mrs -> shr_m (shr_1 mrs) = shr_m mrs / 2.
Proof.
  destruct mrs as [m r s]; cbn [shr_m shr_1]. intros Hm.
  destruct m as [|[p|p|]|p]; cbn [shr_m]; try lia; try reflexivity.
  - apply (Z.div_unique _ _ _ 1); lia.
  - apply (Z.div_unique _ _ _ 0); lia.
Qed.

Lemma iter_shr_1_m (p : positive) : forall mrs : shr_record,
  0 <= shr_m mrs -> shr_m (SpecFloat.iter_pos shr_1 p mrs) = shr_m mrs / 2 ^ Z.pos p.
Proof.
  assert (Hnn : forall a b, 0 <= a -> 0 < b -> 0 <= a / b) by (intros; apply Z.div_pos; lia).
  assert (Hp2 : forall q, 0 < 2 ^ Z.pos q) by (intros; apply Z.pow_pos_nonneg; lia).
  induction p as [p IH | p IH |]; intros mrs Hm; simpl SpecFloat.iter_pos.
  - assert (H1 : 0 <= shr_m (shr_1 mrs)) by (rewrite shr_1_m by done; apply Hnn; lia).
    assert (H2 : 0 <= shr_m (SpecFloat.iter_pos shr_1 p (shr_1 mrs)))
      by (rewrite IH by done; apply Hnn; [done | apply Hp2]).
    rewrite IH, IH, shr_1_m by done.
    pose proof (Hp2 p).
    rewrite !Z.div_div by lia. f_equal.
    replace (Z.pos p~1) with (1 + Z.pos p + Z.pos p) by lia.
    rewrite !Z.pow_add_r by lia. change (2 ^ 1) with 2. lia.
  - assert (H2 : 0 <= shr_m (SpecFloat.iter_pos shr_1 p mrs))
      by (rewrite IH by done; apply Hnn; [done | apply Hp2]).
    rewrite IH, IH by done.
    pose proof (Hp2 p).
    rewrite Z.div_div by lia. f_equal.
    replace (Z.pos p~0) with (Z.pos p + Z.pos p) by lia.
    rewrite Z.pow_add_r by lia. reflexivity.
  - rewrite shr_1_m by done. reflexivity.
Qed.

Lemma shr_record_of_loc_m (m : Z) (l : location) : shr_m (shr_record_of_loc m l) = m.
Proof. destruct l as [|[]]; reflexivity. Qed.

Lemma shr_fexp_pos (m e : Z) (l : location) :
  0 < m -> -1074 <= e ->
  0 < shr_m (shr_fexp 53 1024 m e l).1 /\
  e <= (shr_fexp 53 1024 m e l).2 /\
  (shr_fexp 53 1024 m e l).2 <= Z.max e (Zdigits2 m + e - 53) /\
  Zdigits2 (shr_m (shr_fexp 53 1024 m e l).1) + (shr_fexp 53 1024 m e l).2 <= Zdigits2 m + e.
Proof.
  intros Hm He. unfold shr_fexp, shr, fexp, emin.
  pose proof (Zdigits2_bounds m Hm) as [Hlo Hhi].
  pose proof (Zdigits2_pos m Hm) as HD.
  destruct (Z.max (Zdigits2 m + e - 53) (3 - 1024 - 53) - e) as [|n|n] eqn:Hn;
    simpl fst; simpl snd; rewrite ?shr_record_of_loc_m; try lia.
  rewrite iter_shr_1_m by (rewrite shr_record_of_loc_m; lia).
  rewrite shr_record_of_loc_m.
  assert (Hn' : Z.pos n = Zdigits2 m - 53) by lia.
  assert (H2n : 0 < 2 ^ Z.pos n) by (apply Z.pow_pos_nonneg; lia).
  assert (Hq : 2 ^ 52 <= m / 2 ^ Z.pos n).
  { apply Z.div_le_lower_bound; [done|].
    rewrite <- Z.pow_add_r by lia. replace (Z.pos n + 52) with (Zdigits2 m - 1) by lia. done. }
  assert (Hq' : m / 2 ^ Z.pos n < 2 ^ 53).
  { apply Z.div_lt_upper_bound; [done|].
    rewrite <- Z.pow_add_r by lia. replace (Z.pos n + 53) with (Zdigits2 m) by lia. done. }
  assert (Zdigits2 (m / 2 ^ Z.pos n) <= 53) by (apply Zdigits2_le_of_lt_pow; lia).
  lia.
Qed.

Lemma round_nearest_even_bounds (m : Z) (l : location) :
  m <= round_nearest_even m l <= m + 1.
Proof. destruct l as [|[]]; simpl; try destruct (Z.even m); lia. Qed.

Lemma binary_round_aux_pos (sx : bool) (m e : Z) (l : location) :
  0 < m -> -1074 <= e -> e <= 971 -> Zdigits2 m + e <= 1023 ->
  exists m' e', binary_round_aux 53 1024 sx m e l = S754_finite sx m' e' /\
    e <= e' /\ Zdigits2 (Z.pos m') + e' <= Zdigits2 m + e + 1.
Proof.
  intros Hm He He' Hmag. unfold binary_round_aux.
  pose proof (shr_fexp_pos m e l Hm He) as (H1 & H2 & H3 & H4).
  destruct (shr_fexp 53 1024 m e l) as [mrs1 e1]; simpl fst in *; simpl snd in *.
  pose proof (round_nearest_even_bounds (shr_m mrs1) (loc_of_shr_record mrs1)) as Hr.
  set (m2 := round_nearest_even (shr_m mrs1) (loc_of_shr_record mrs1)) in *.
  assert (Hm2 : 0 < m2) by lia.
  assert (Hd2 : Zdigits2 m2 <= Zdigits2 (shr_m mrs1) + 1).
  { apply Zdigits2_le_of_lt_pow; [done|].
    pose proof (Zdigits2_bounds _ H1) as [_ Hhi].
    pose proof (Zdigits2_pos _ H1).
    rewrite Z.pow_add_r by lia. lia. }
  pose proof (shr_fexp_pos m2 e1 loc_Exact Hm2 ltac:(lia)) as (G1 & G2 & G3 & G4).
  destruct (shr_fexp 53 1024 m2 e1 loc_Exact) as [mrs3 e3]; simpl fst in *; simpl snd in *.
  destruct (shr_m mrs3) as [|m3|m3] eqn:Hm3; try lia.
  exists m3, e3. replace (e3 <=? 1024 - 53) with true by (symmetry; apply Z.leb_le; lia).
  split; [done|]. lia.
Qed.

Lemma Pos_iter_xO (m d : positive) : Z.pos (Pos.iter xO m d) = Z.pos m * 2 ^ Z.pos d.
Proof.
  induction d as [|d IH] using Pos.peano_ind.
  - simpl. lia.
  - rewrite Pos.iter_succ, Pos2Z.inj_xO, IH, Pos2Z.inj_succ, Z.pow_succ_r by lia. lia.
Qed.

Lemma shl_align_spec (m : positive) (e e' : Z) :
  Z.pos (shl_align m e e').1 = Z.pos m * 2 ^ (e - (shl_align m e e').2) /\
  (shl_align m e e').2 = Z.min e e'.
Proof.
  unfold shl_align. destruct (e' - e) as [|d|d] eqn:Hd; simpl fst; simpl snd.
  - replace (e - e) with 0 by lia. lia.
  - replace (e - e) with 0 by lia. lia.
  - rewrite Pos_iter_xO. replace (e - e') with (Z.pos d) by lia. lia.
Qed.

Lemma Zdigits2_mul_pow (m k : Z) : 0 < m -> 0 <= k -> Zdigits2 (m * 2 ^ k) <= Zdigits2 m + k.
Proof.
  intros Hm Hk. pose proof (Zdigits2_bounds m Hm) as [_ Hhi].
  pose proof (Zdigits2_pos m Hm).
  assert (0 < 2 ^ k) by (apply Z.pow_pos_nonneg; lia).
  apply Zdigits2_le_of_lt_pow; [nia|].
  rewrite Z.pow_add_r by lia. nia.
Qed.

Lemma binary_round_pos (sx : bool) (m : positive) (e : Z) :
  -1074 <= e -> e <= 971 -> Zdigits2 (Z.pos m) + e <= 1023 ->
  exists m' e', binary_round 53 1024 sx m e = S754_finite sx m' e' /\
    Z.max (e - 52) (-1074) <= e' /\
    Zdigits2 (Z.pos m') + e' <= Zdigits2 (Z.pos m) + e + 1.
Proof.
  intros He He' Hmag. unfold binary_round.
  pose proof (shl_align_spec m e (fexp 53 1024 (Z.pos (digits2_pos m) + e))) as [Hm Hz].
  destruct (shl_align m e _) as [mz ez]; simpl fst in *; simpl snd in *.
  change (Z.pos (digits2_pos m)) with (Zdigits2 (Z.pos m)) in *.
  assert (HD : 0 < Zdigits2 (Z.pos m)) by (apply Zdigits2_pos; lia).
  unfold fexp, emin in Hz.
  assert (Hdz : Zdigits2 (Z.pos mz) + ez <= Zdigits2 (Z.pos m) + e).
  { rewrite Hm. pose proof (Zdigits2_mul_pow (Z.pos m) (e - ez)). lia. }
  destruct (binary_round_aux_pos sx (Z.pos mz) ez loc_Exact) as (m' & e' & Hr & Hle & Hd); try lia.
  exists m', e'. split; [done|]. lia.
Qed.
End Rounding.

Section Ops.
Lemma bounded_pos_weaken (lo hi lo' hi' : Z) (x : spec_float) :
  F64.bounded_pos lo hi x -> lo' <= lo -> hi <= hi' -> F64.bounded_pos lo' hi' x.
Proof. intros (m & e & -> & ? & ?) ? ?. exists m, e. split; [done|]. lia. Qed.

Lemma of_Z_bounded (n k : Z) :
  0 < n -> n < 2 ^ k -> k <= 1022 -> F64.bounded_pos (-52) (k + 1) (F64.of_Z n).
Proof.
  intros Hn Hk Hk'. destruct n as [|p|p]; try lia.
  pose proof (Zdigits2_le_of_lt_pow _ _ Hn Hk) as Hd.
  unfold F64.of_Z, F64.prec, F64.emax, binary_normalize.
  destruct (binary_round_pos false p 0) as (m' & e' & Hr & Hlo & Hhi); try lia.
  exists m', e'. split; [done|]. lia.
Qed.

Lemma div_core_pos (m1 m2 : positive) (e1 e2 : Z) :
  -1074 <= Zdigits2 (Z.pos m1) + e1 - (Zdigits2 (Z.pos m2) + e2) - 53 ->
  exists q,
    (SFdiv_core_binary 53 1024 (Z.pos m1) e1 (Z.pos m2) e2).1.1 = Z.pos q /\
    (SFdiv_core_binary 53 1024 (Z.pos m1) e1 (Z.pos m2) e2).1.2 =
      Z.min (Zdigits2 (Z.pos m1) + e1 - (Zdigits2 (Z.pos m2) + e2) - 53) (e1 - e2) /\
    Zdigits2 (Z.pos q) + (SFdiv_core_binary 53 1024 (Z.pos m1) e1 (Z.pos m2) e2).1.2
      <= Zdigits2 (Z.pos m1) + e1 - (Zdigits2 (Z.pos m2) + e2) + 1.
Proof.
  intros Hn. unfold SFdiv_core_binary, fexp, emin.
  set (D1 := Zdigits2 (Z.pos m1)) in *. set (D2 := Zdigits2 (Z.pos m2)) in *.
  pose proof (Zdigits2_bounds (Z.pos m1) eq_refl) as [L1 U1].
  pose proof (Zdigits2_bounds (Z.pos m2) eq_refl) as [L2 U2].
  pose proof (Zdigits2_pos (Z.pos m1) eq_refl) as P1.
  pose proof (Zdigits2_pos (Z.pos m2) eq_refl) as P2.
  fold D1 in L1, U1, P1. fold D2 in L2, U2, P2.
  replace (Z.max (D1 + e1 - (D2 + e2) - 53) (3 - 1024 - 53))
    with (D1 + e1 - (D2 + e2) - 53) by lia.
  set (e' := Z.min (D1 + e1 - (D2 + e2) - 53) (e1 - e2)).
  set (s := e1 - e2 - e').
  assert (Hs : 0 <= s /\ D2 - D1 + 53 <= s) by (unfold s, e'; lia).
  set (m' := match s with Z0 => Z.pos m1 | Z.pos _ => Z.shiftl (Z.pos m1) s | Z.neg _ => 0 end).
  assert (Hm' : m' = Z.pos m1 * 2 ^ s).
  { unfold m'. destruct s as [|p|p] eqn:Es; try lia. apply Z.shiftl_mul_pow2. lia. }
  clearbody m'.
  assert (H2s : 0 < 2 ^ s) by (apply Z.pow_pos_nonneg; lia).
  assert (Hlo : 2 ^ (D2 + 52) <= m').
  { rewrite Hm'. transitivity (2 ^ (D1 - 1) * 2 ^ s); [|nia].
    rewrite <- Z.pow_add_r by lia. apply Z.pow_le_mono_r; lia. }
  assert (Hhi : m' < 2 ^ (D1 + s)).
  { rewrite Hm', Z.pow_add_r by lia. nia. }
  assert (Hq : m' / Z.pos m2 = (Z.div_eucl m' (Z.pos m2)).1) by reflexivity.
  destruct (Z.div_eucl m' (Z.pos m2)) as [q r]; simpl fst in *; simpl snd in *.
  assert (Hq1 : 2 ^ 52 <= q).
  { subst q. apply Z.div_le_lower_bound; [lia|].
    transitivity (2 ^ D2 * 2 ^ 52); [nia|]. rewrite <- Z.pow_add_r by lia. done. }
  assert (Hq2 : q < 2 ^ (D1 + s - D2 + 1)).
  { subst q. apply Z.div_lt_upper_bound; [lia|].
    assert (2 ^ (D1 + s) = 2 ^ (D2 - 1) * 2 ^ (D1 + s - D2 + 1))
      by (rewrite <- Z.pow_add_r by lia; f_equal; lia).
    assert (0 < 2 ^ (D1 + s - D2 + 1)) by (apply Z.pow_pos_nonneg; lia).
    nia. }
  assert (0 < 2 ^ 52) by done.
  destruct q as [|q|q]; try lia.
  exists q. split; [done|]. split; [done|].
  pose proof (Zdigits2_le_of_lt_pow (Z.pos q) _ eq_refl Hq2). unfold s in *. lia.
Qed.

Lemma div_bounded (lo1 hi1 lo2 hi2 : Z) (x y : spec_float) :
  F64.bounded_pos lo1 hi1 x -> F64.bounded_pos lo2 hi2 y ->
  -1074 <= lo1 - hi2 - 52 -> hi1 - lo2 <= 972 ->
  F64.bounded_pos (lo1 - hi2 - 52) (hi1 - lo2 + 1) (F64.div x y).
Proof.
  intros (m1 & e1 & -> & Hl1 & Hh1) (m2 & e2 & -> & Hl2 & Hh2) Hlo Hhi.
  pose proof (Zdigits2_pos (Z.pos m1) eq_refl) as P1.
  pose proof (Zdigits2_pos (Z.pos m2) eq_refl) as P2.
  unfold F64.div, F64.prec, F64.emax, SFdiv.
  destruct (div_core_pos m1 m2 e1 e2) as (q & Hq & He & Hd); [lia|].
  destruct (SFdiv_core_binary 53 1024 (Z.pos m1) e1 (Z.pos m2) e2) as [[mz ez] lz];
    simpl fst in *; simpl snd in *. subst mz.
  destruct (binary_round_aux_pos (xorb false false) (Z.pos q) ez lz)
    as (m' & e' & Hr & Hle & Hmag); try lia.
  exists m', e'. split; [done|]. lia.
Qed.

Lemma add_bounded (lo1 hi1 lo2 hi2 : Z) (x y : spec_float) :
  F64.bounded_pos lo1 hi1 x -> F64.bounded_pos lo2 hi2 y ->
  -1074 <= Z.min lo1 lo2 -> Z.max hi1 hi2 <= 970 ->
  F64.bounded_pos (Z.min lo1 lo2 - 52) (Z.max hi1 hi2 + 2) (F64.add x y).
Proof.
  intros (m1 & e1 & -> & Hl1 & Hh1) (m2 & e2 & -> & Hl2 & Hh2) Hlo Hhi.
  pose proof (Zdigits2_pos (Z.pos m1) eq_refl) as P1.
  pose proof (Zdigits2_pos (Z.pos m2) eq_refl) as P2.
  pose proof (Zdigits2_bounds (Z.pos m1) eq_refl) as [_ U1].
  pose proof (Zdigits2_bounds (Z.pos m2) eq_refl) as [_ U2].
  unfold F64.add, F64.prec, F64.emax, SFadd, cond_Zopp.
  set (ez := Z.min e1 e2).
  pose proof (shl_align_spec m1 e1 ez) as [Ha Hae].
  pose proof (shl_align_spec m2 e2 ez) as [Hb Hbe].
  destruct (shl_align m1 e1 ez) as [a ea]. destruct (shl_align m2 e2 ez) as [b eb].
  simpl fst in *; simpl snd in *.
  change (Z.pos a + Z.pos b) with (Z.pos (a + b)). unfold binary_normalize.
  assert (Hsum : Z.pos (a + b) < 2 ^ (Z.max (Zdigits2 (Z.pos m1) + e1) (Zdigits2 (Z.pos m2) + e2) - ez + 1)).
  { rewrite Pos2Z.inj_add, Ha, Hb.
    replace ea with ez by (unfold ez in *; lia). replace eb with ez by (unfold ez in *; lia).
    set (M := Z.max _ _).
    assert (H1 : Z.pos m1 * 2 ^ (e1 - ez) < 2 ^ (M - ez)).
    { apply Z.lt_le_trans with (2 ^ (Zdigits2 (Z.pos m1)) * 2 ^ (e1 - ez)).
      - assert (0 < 2 ^ (e1 - ez)) by (apply Z.pow_pos_nonneg; unfold ez; lia). nia.
      - rewrite <- Z.pow_add_r by (unfold ez; lia). apply Z.pow_le_mono_r; unfold M, ez; lia. }
    assert (H2 : Z.pos m2 * 2 ^ (e2 - ez) < 2 ^ (M - ez)).
    { apply Z.lt_le_trans with (2 ^ (Zdigits2 (Z.pos m2)) * 2 ^ (e2 - ez)).
      - assert (0 < 2 ^ (e2 - ez)) by (apply Z.pow_pos_nonneg; unfold ez; lia). nia.
      - rewrite <- Z.pow_add_r by (unfold ez; lia). apply Z.pow_le_mono_r; unfold M, ez; lia. }
    rewrite Z.pow_add_r by (unfold M, ez; lia). lia. }
  pose proof (Zdigits2_le_of_lt_pow (Z.pos (a + b)) _ eq_refl Hsum) as Hd.
  destruct (binary_round_pos false (a + b) ez) as (m' & e' & Hr & Hle & Hmag);
    try (unfold ez in *; lia).
  exists m', e'. split; [done|]. unfold ez in *. lia.
Qed.
End Ops.

Lemma of_Z_1e9_bounded : F64.bounded_pos (-23) 30 (F64.of_Z 1000000000).
Proof. eexists _, _. split; [vm_compute; reflexivity|]. vm_compute. split; discriminate. Qed.

Lemma Seconds_bounded (d : Z) : 0 < d < 2 ^ 63 -> F64.bounded_pos (-187) 57 (time.Seconds d).
Proof.
  intros [Hd Hd']. unfold time.Seconds.
  rewrite Z.quot_div_nonneg, Z.rem_mod_nonneg by (unfold time.Second; lia).
  assert (Hs : 0 <= d / time.Second < 2 ^ 34).
  { split; [apply Z.div_pos; unfold time.Second; lia|].
    apply Z.div_lt_upper_bound; unfold time.Second; lia. }
  assert (Hn : 0 <= d mod time.Second < 2 ^ 30)
    by (pose proof (Z.mod_pos_bound d time.Second); unfold time.Second in *; lia).
  assert (Hne : d / time.Second <> 0 \/ d mod time.Second <> 0).
  { pose proof (Z.div_mod d time.Second). unfold time.Second in *. lia. }
  assert (HB : d mod time.Second <> 0 ->
    F64.bounded_pos (-135) 55 (F64.div (F64.of_Z (d mod time.Second)) (F64.of_Z 1000000000))).
  { intros Hnz. eapply bounded_pos_weaken.
    - eapply div_bounded; [apply (of_Z_bounded _ 30); lia | apply of_Z_1e9_bounded | |]; lia.
    - lia.
    - lia. }
  destruct (Z.eq_dec (d / time.Second) 0) as [Es|Es]; destruct (Z.eq_dec (d mod time.Second) 0) as [En|En].
  - lia.
  - rewrite Es. specialize (HB En). destruct HB as (m & e & HB & ? & ?).
    rewrite HB. simpl. exists m, e. split; [done|]. lia.
  - rewrite En. pose proof (of_Z_bounded (d / time.Second) 34) as HA.
    destruct HA as (m & e & HA & ? & ?); try lia.
    rewrite HA. simpl. exists m, e. split; [done|]. lia.
  - eapply bounded_pos_weaken.
    + eapply add_bounded; [apply (of_Z_bounded _ 34); lia | apply HB; done | |]; lia.
    + lia.
    + lia.
Qed.

Section RateFacts.
Lemma bounded_pos_facts (lo hi : Z) (x : float64) :
  F64.bounded_pos lo hi x ->
  F64.positive x = true /\ F64.nonneg x = true /\
  F64.is_finite x = true /\ F64.eqb x F64.zero = false.
Proof. intros (m & e & -> & _ & _). repeat split. Qed.

Lemma wrap_int64_range (z : Z) : is_int64 (wrap_int64 z).
Proof.
  unfold is_int64, wrap_int64.
  pose proof (Z.mod_pos_bound (z + 2 ^ 63) (2 ^ 64) eq_refl). lia.
Qed.

Lemma Sub_int64 (t u : time.Time) : is_int64 (time.Sub t u).
Proof.
  unfold time.Sub, time.subMono.
  pose proof (wrap_int64_range (t - u)) as H.
  destruct (_ && _); [unfold is_int64, time.maxDuration; lia|].
  destruct (_ && _); [unfold is_int64, time.minDuration; lia|]. done.
Qed.

(** Without overflow [Sub] is the plain difference. *)
Lemma Sub_exact (t u : time.Time) : is_int64 (t - u) -> time.Sub t u = t - u.
Proof.
  unfold is_int64, time.Sub, time.subMono, wrap_int64. intros H.
  replace ((t - u + 2 ^ 63) mod 2 ^ 64 - 2 ^ 63) with (t - u)
    by (rewrite Z.mod_small; lia).
  destruct (t - u <? 0) eqn:E1, (t >? u) eqn:E2, (t - u >? 0) eqn:E3, (t <? u) eqn:E4;
    simpl; try reflexivity; lia.
Qed.

Lemma Seconds_zero : time.Seconds 0 = F64.zero.
Proof. reflexivity. Qed.

Lemma deltaTime_bounded (now prev : time.Time) :
  0 < time.Sub now prev ->
  F64.bounded_pos (-187) 57 (time.Seconds (time.Sub now prev)).
Proof.
  intros H. apply Seconds_bounded. pose proof (Sub_int64 now prev) as [_ ?]. lia.
Qed.

(** [float64(n) / deltaTime] for a [uint64] difference [n]. *)
Lemma rate_positive (n : Z) (y : float64) :
  0 < n < 2 ^ 64 -> F64.bounded_pos (-187) 57 y ->
  F64.bounded_pos (-161) 253 (F64.div (F64.of_Z n) y).
Proof.
  intros [Hn Hn'] Hy. eapply bounded_pos_weaken.
  - eapply div_bounded; [apply (of_Z_bounded n 64); lia | exact Hy | |]; lia.
  - lia.
  - lia.
Qed.

Lemma rate_nonneg (n : Z) (y : float64) :
  0 <= n < 2 ^ 64 -> F64.bounded_pos (-187) 57 y ->
  F64.nonneg (F64.div (F64.of_Z n) y) = true /\
  F64.is_finite (F64.div (F64.of_Z n) y) = true.
Proof.
  intros [Hn Hn'] Hy. destruct (Z.eq_dec n 0) as [->|Hnz].
  - destruct Hy as (m & e & -> & _ & _). done.
  - pose proof (rate_positive n y ltac:(lia) Hy) as Hr.
    apply bounded_pos_facts in Hr. tauto.
Qed.
End RateFacts.

(** ** The sampling loop *)

Section SampleLoop.
Variable ebpfMap : Map.
Variable deltaTime : float64.

Lemma NoDup_tcKeyOrder : NoDup tcKeyOrder.
Proof. apply (bool_decide_unpack (NoDup tcKeyOrder)). vm_compute. exact I. Qed.

Lemma sampleAction_out (acc : list Output * gmap string Z) (action : string) :
  (sampleAction ebpfMap deltaTime acc action).1 =
  acc.1 ++ [sampleOutput ebpfMap deltaTime acc.2 action].
Proof. unfold sampleAction, sampleOutput. destruct (ebpfMap _); reflexivity. Qed.

Lemma sampleAction_prev_ne (acc : list Output * gmap string Z) (action k : string) :
  k <> action -> (sampleAction ebpfMap deltaTime acc action).2 !! k = acc.2 !! k.
Proof.
  intros Hne. unfold sampleAction. destruct (ebpfMap _); simpl; [|done].
  by rewrite lookup_insert_ne.
Qed.

Lemma sampleOutput_agree (p q : gmap string Z) (action : string) :
  p !! action = q !! action ->
  sampleOutput ebpfMap deltaTime p action = sampleOutput ebpfMap deltaTime q action.
Proof. intros H. unfold sampleOutput, map_get. by rewrite H. Qed.

Lemma sampleLoop_cons (a : string) (l : list string) (acc : list Output * gmap string Z) :
  sampleLoop ebpfMap deltaTime (a :: l) acc =
  sampleLoop ebpfMap deltaTime l (sampleAction ebpfMap deltaTime acc a).
Proof. reflexivity. Qed.

(** With distinct actions every iteration reads the count stored before
    the call: the loop prints [sampleOutput] of the initial state. *)
Lemma sampleLoop_out (actions : list string) :
  NoDup actions -> forall acc : list Output * gmap string Z,
  (sampleLoop ebpfMap deltaTime actions acc).1 =
  acc.1 ++ (sampleOutput ebpfMap deltaTime acc.2 <$> actions).
Proof.
  induction 1 as [|a l Hnotin Hnd IH]; intros acc.
  - simpl. by rewrite app_nil_r.
  - rewrite sampleLoop_cons, IH, sampleAction_out, <- app_assoc. simpl.
    do 2 f_equal. apply list_fmap_ext. intros i k Hk.
    apply sampleOutput_agree, sampleAction_prev_ne.
    intros ->. apply Hnotin. by eapply list_elem_of_lookup_2.
Qed.

Lemma sampleLoop_prev_notin (actions : list string) (k : string) :
  k ∉ actions -> forall acc : list Output * gmap string Z,
  (sampleLoop ebpfMap deltaTime actions acc).2 !! k = acc.2 !! k.
Proof.
  induction actions as [|a l IH]; intros Hk acc; [done|].
  apply not_elem_of_cons in Hk as [Hne Hk].
  rewrite sampleLoop_cons, IH by done. by apply sampleAction_prev_ne.
Qed.

Lemma sampleLoop_prev_err (actions : list string) (k e : string) :
  ebpfMap (map_get tcKeys k) = Err e -> forall acc : list Output * gmap string Z,
  (sampleLoop ebpfMap deltaTime actions acc).2 !! k = acc.2 !! k.
Proof.
  intros He. induction actions as [|a l IH]; intros acc; [done|].
  rewrite sampleLoop_cons, IH.
  destruct (decide (k = a)) as [->|Hne]; [|by apply sampleAction_prev_ne].
  unfold sampleAction. by rewrite He.
Qed.

Lemma sampleLoop_prev_ok (actions : list string) (k : string) (v : Z) :
  ebpfMap (map_get tcKeys k) = Ok v -> k ∈ actions ->
  forall acc : list Output * gmap string Z,
  (sampleLoop ebpfMap deltaTime actions acc).2 !! k = Some v.
Proof.
  intros Hv. induction actions as [|a l IH]; intros Hk acc.
  - by apply elem_of_nil in Hk.
  - rewrite sampleLoop_cons. destruct (decide (k ∈ l)) as [Hin|Hnotin].
    + by apply IH.
    + apply elem_of_cons in Hk as [->|Hk]; [|done].
      rewrite (sampleLoop_prev_notin l a Hnotin). unfold sampleAction.
      rewrite Hv. simpl. by rewrite lookup_insert_eq.
Qed.
End SampleLoop.

(** ** What one tick displays *)

Section Displayed.
Variable ebpfMap : Map.
Variable deltaTime : float64.
Variable prev : gmap string Z.

Lemma displayed_sampleOutput_ok (actions : list string) (a : string) (v : Z) :
  a ∈ actions -> ebpfMap (map_get tcKeys a) = Ok v ->
  displayed a (sampleOutput ebpfMap deltaTime prev <$> actions) =
  Some (v, F64.div (F64.of_Z (wrap_uint64 (v - map_get prev a))) deltaTime).
Proof.
  intros Hin Hv. induction actions as [|h l IH]; [by apply elem_of_nil in Hin|].
  simpl. destruct (decide (h = a)) as [->|Hne].
  - unfold sampleOutput at 1. rewrite Hv. simpl. by rewrite String.eqb_refl.
  - apply elem_of_cons in Hin as [->|Hin]; [done|].
    unfold sampleOutput at 1. destruct (ebpfMap (map_get tcKeys h)); simpl; [|by apply IH].
    apply String.eqb_neq in Hne. rewrite Hne. by apply IH.
Qed.

Lemma displayed_sampleOutput_err (actions : list string) (a e : string) :
  ebpfMap (map_get tcKeys a) = Err e ->
  displayed a (sampleOutput ebpfMap deltaTime prev <$> actions) = None.
Proof.
  intros He. induction actions as [|h l IH]; [done|].
  simpl. unfold sampleOutput at 1. destruct (decide (h = a)) as [->|Hne].
  - by rewrite He.
  - destruct (ebpfMap (map_get tcKeys h)); simpl; [|done].
    apply String.eqb_neq in Hne. by rewrite Hne.
Qed.

Lemma logged_sampleOutput_err (actions : list string) (a e : string) :
  a ∈ actions -> ebpfMap (map_get tcKeys a) = Err e ->
  LogLookupError a e ∈ (sampleOutput ebpfMap deltaTime prev <$> actions).
Proof.
  intros Hin He. apply list_elem_of_fmap. exists a. split; [|done].
  unfold sampleOutput. by rewrite He.
Qed.

Lemma names_sampleOutput (actions : list string) :
  names (sampleOutput ebpfMap deltaTime prev <$> actions) =
  List.filter (lookup_ok ebpfMap) actions.
Proof.
  unfold names, snapshot. induction actions as [|h l IH]; [done|].
  simpl. unfold sampleOutput at 1, lookup_ok at 1.
  destruct (ebpfMap (map_get tcKeys h)); simpl; [by f_equal|done].
Qed.
End Displayed.

Section Tick.
Variable ebpfMap : Map.
Variable st : RateState.
Variable now : time.Time.

(** A tick with zero elapsed time prints the header and returns. *)
Lemma lookupAndPrintStats_zero :
  time.Sub now (prevTime st) = 0 ->
  lookupAndPrintStats ebpfMap st now = ([Println header], st).
Proof. intros H. unfold lookupAndPrintStats. by rewrite H. Qed.

(** A tick with positive elapsed time runs the loop over [tcKeyOrder]. *)
Lemma lookupAndPrintStats_pos :
  0 < time.Sub now (prevTime st) ->
  lookupAndPrintStats ebpfMap st now =
  (Println header ::
     (sampleOutput ebpfMap (time.Seconds (time.Sub now (prevTime st))) (prevValues st)
        <$> tcKeyOrder),
   mkRateState
     (sampleLoop ebpfMap (time.Seconds (time.Sub now (prevTime st))) tcKeyOrder
        ([Println header], prevValues st)).2
     now).
Proof.
  intros H. unfold lookupAndPrintStats.
  pose proof (deltaTime_bounded _ _ H) as Hb. apply bounded_pos_facts in Hb as (_ & _ & _ & ->).
  by rewrite (sampleLoop_out _ _ _ NoDup_tcKeyOrder).
Qed.

(** Whatever the clock says, the names displayed are the readable actions
    in canonical order, or nothing. *)
Lemma names_any_tick :
  names (lookupAndPrintStats ebpfMap st now).1 = [] \/
  names (lookupAndPrintStats ebpfMap st now).1 = List.filter (lookup_ok ebpfMap) tcKeyOrder.
Proof.
  unfold lookupAndPrintStats. destruct (F64.eqb _ _); [by left|right].
  cbn [fst]. rewrite (sampleLoop_out _ _ _ NoDup_tcKeyOrder). cbn [fst snd].
  change ([Println header] ++ ?l) with (Println header :: l).
  change (names (Println header :: ?l)) with (names l).
  apply names_sampleOutput.
Qed.
End Tick.

(** ** The rate engine *)

(** C1: on a tick with strictly positive elapsed time, for a key of the
    canonical list whose counter read succeeds, the displayed rate is
    [float64(value - prev) / deltaTime], where [prev] is the stored previous
    count and [deltaTime] the elapsed seconds; when the count did not go down
    this is the exact difference divided by the elapsed seconds, and it is
    a finite number that is not negative. *)
Theorem C1_rate_formula (ebpfMap : Map) (st : RateState) (now : time.Time)
    (action : string) (value : Z) :
  0 < time.Sub now (prevTime st) ->
  action ∈ tcKeyOrder ->
  ebpfMap (map_get tcKeys action) = Ok value ->
  exists rate : float64,
    displayed action (lookupAndPrintStats ebpfMap st now).1 = Some (value, rate) /\
    rate = F64.div (F64.of_Z (wrap_uint64 (value - map_get (prevValues st) action)))
             (time.Seconds (time.Sub now (prevTime st))) /\
    (0 <= map_get (prevValues st) action <= value -> value < 2 ^ 64 ->
       rate = F64.div (F64.of_Z (value - map_get (prevValues st) action))
                (time.Seconds (time.Sub now (prevTime st))) /\
       F64.nonneg rate = true /\ F64.is_finite rate = true).
Proof.
  intros Hpos Hin Hv. eexists. split; [|split; [reflexivity|]].
  - rewrite lookupAndPrintStats_pos by done. cbn [fst displayed].
    by apply displayed_sampleOutput_ok.
  - intros Hmono Hmax. unfold wrap_uint64. rewrite Z.mod_small by lia.
    split; [reflexivity|].
    apply rate_nonneg; [lia | by apply deltaTime_bounded].
Qed.

(** Scenario B: over two seconds the accept count goes from 10 to 14 and
    the drop count stays 0; the rates displayed are 2.0 and +0.0. *)
Lemma C1_rate_formula_witness :
  exists rate : float64,
    displayed "TC_ACT_OK"
      (lookupAndPrintStats (Examples.table_accept 14)
         (mkRateState {[ "TC_ACT_OK" := 10 ]} 0) (2 * Examples.second)).1
      = Some (14, rate) /\
    rate = F64.of_Z 2 /\ F64.nonneg rate = true.
Proof.
  destruct (C1_rate_formula (Examples.table_accept 14)
              (mkRateState {[ "TC_ACT_OK" := 10 ]} 0) (2 * Examples.second)
              "TC_ACT_OK" 14) as (rate & Hd & Hr & Hmono).
  - vm_compute. reflexivity.
  - apply (bool_decide_unpack _). vm_compute. exact I.
  - reflexivity.
  - exists rate. split; [exact Hd|].
    destruct Hmono as (Hexact & Hnn & _).
    + vm_compute. split; discriminate.
    + reflexivity.
    + split; [|exact Hnn]. rewrite Hexact. vm_compute. reflexivity.
Defined.

Example scenario_B_drop :
  displayed "TC_ACT_SHOT"
    (lookupAndPrintStats (Examples.table_accept 14)
       (mkRateState {[ "TC_ACT_OK" := 10 ]} 0) (2 * Examples.second)).1
  = Some (0, F64.zero).
Proof. vm_compute. reflexivity. Qed.



(** C4, as stated, fails: a tick at the very instant of the previous sample
    displays no entry at all, while the previous tick displayed nine. *)
Lemma C4_counterexample :
  time.Sub Examples.second (prevTime Examples.tick1.2) = 0 /\
  length (snapshot Examples.tick1.1) = 9%nat /\
  snapshot Examples.tick2_same_instant.1 = [] /\
  snapshot Examples.tick2_same_instant.1 <> snapshot Examples.tick1.1.
Proof.
  split; [reflexivity|]. split; [reflexivity|]. split; [reflexivity|].
  vm_compute. discriminate.
Qed.

(** C4 (amended): on a tick whose elapsed time is exactly zero the call
    skips the rate update entirely: the stored previous counts and the
    previous timestamp are unchanged, and only the header is printed, so the
    snapshot of that tick has no entries. *)
Theorem C4_zero_elapsed_skips (ebpfMap : Map) (st : RateState) (now : time.Time) :
  time.Sub now (prevTime st) = 0 ->
  (lookupAndPrintStats ebpfMap st now).2 = st /\
  (lookupAndPrintStats ebpfMap st now).1 = [Println header] /\
  snapshot (lookupAndPrintStats ebpfMap st now).1 = [].
Proof. intros H. by rewrite lookupAndPrintStats_zero. Qed.

Lemma C4_zero_elapsed_skips_witness :
  Examples.tick2_same_instant.2 = Examples.tick1.2 /\
  Examples.tick2_same_instant.1 = [Println header] /\
  snapshot Examples.tick2_same_instant.1 = [].
Proof.
  apply (C4_zero_elapsed_skips (Examples.table 20) Examples.tick1.2 Examples.second).
  reflexivity.
Defined.

(** C5, as stated, fails: there is one previous timestamp for all keys, and
    a tick on which the read of key 7 fails still moves it. *)
Lemma C5_counterexample :
  0 < time.Sub (2 * Examples.second) (prevTime Examples.tick1.2) /\
  Examples.table_failing 7 20 (map_get tcKeys "TC_ACT_REDIRECT") = Err "lookup failed" /\
  prevTime Examples.tick2_failing.2 <> prevTime Examples.tick1.2.
Proof.
  split; [reflexivity|]. split; [reflexivity|]. vm_compute. discriminate.
Qed.

(** C5 (amended): on a tick with positive elapsed time the stored previous
    count of a key whose read succeeded becomes the count read, the stored
    previous count of a key whose read failed (and of any name outside the
    canonical list) is unchanged, and the previous timestamp, one value
    shared by all keys, becomes the time of the tick. *)
Theorem C5_state_update (ebpfMap : Map) (st : RateState) (now : time.Time)
    (action : string) :
  0 < time.Sub now (prevTime st) ->
  prevTime (lookupAndPrintStats ebpfMap st now).2 = now /\
  (forall v, action ∈ tcKeyOrder -> ebpfMap (map_get tcKeys action) = Ok v ->
     prevValues (lookupAndPrintStats ebpfMap st now).2 !! action = Some v) /\
  (forall e, ebpfMap (map_get tcKeys action) = Err e ->
     prevValues (lookupAndPrintStats ebpfMap st now).2 !! action =
     prevValues st !! action) /\
  (action ∉ tcKeyOrder ->
     prevValues (lookupAndPrintStats ebpfMap st now).2 !! action =
     prevValues st !! action).
Proof.
  intros Hpos. rewrite lookupAndPrintStats_pos by done. cbn [snd prevTime prevValues].
  split; [reflexivity|]. split; [|split].
  - intros v Hin Hv. by apply sampleLoop_prev_ok.
  - intros e He. by rewrite (sampleLoop_prev_err _ _ _ _ _ He).
  - intros Hnotin. by rewrite sampleLoop_prev_notin.
Qed.

Lemma C5_state_update_witness :
  prevTime Examples.tick2_failing.2 = 2 * Examples.second /\
  prevValues Examples.tick2_failing.2 !! "TC_ACT_OK" = Some 20 /\
  prevValues Examples.tick2_failing.2 !! "TC_ACT_REDIRECT" =
    prevValues Examples.tick1.2 !! "TC_ACT_REDIRECT".
Proof.
  destruct (C5_state_update (Examples.table_failing 7 20) Examples.tick1.2
              (2 * Examples.second) "TC_ACT_OK") as (Ht & Hok & _ & _);
    [reflexivity|].
  destruct (C5_state_update (Examples.table_failing 7 20) Examples.tick1.2
              (2 * Examples.second) "TC_ACT_REDIRECT") as (_ & _ & Herr & _);
    [reflexivity|].
  split; [exact Ht|]. split.
  - apply Hok; [|reflexivity]. apply (bool_decide_unpack _). vm_compute. exact I.
  - apply (Herr "lookup failed"). reflexivity.
Defined.

(** ** The poll loop *)

Section PollLoop.
(** One tick: the screen is cleared, the call's output is written, and the
    loop goes on to the next [select] with the updated state. *)
Lemma pollLoop_tick (now : time.Time) (ebpfMap : Map) (rest : list SelectCase)
    (st : RateState) (p : Proc) :
  pollLoop (TickerC now ebpfMap :: rest) st p =
  pollLoop rest (lookupAndPrintStats ebpfMap st now).2
    (mkProc (trace p ++ EvClearScreen :: (EvOut <$> (lookupAndPrintStats ebpfMap st now).1))
            (deferred p)).
Proof.
  cbn [pollLoop]. unfold mbind, M_bind, emit, emitAll. cbn [trace deferred].
  by rewrite <- app_assoc.
Qed.

Lemma pollLoop_done (rest : list SelectCase) (st : RateState) (p : Proc) :
  pollLoop (CtxDone :: rest) st p =
  (Val tt, mkProc (trace p ++ [EvOut (Println exiting)]) (deferred p)).
Proof. reflexivity. Qed.

(** The loop never calls [os.Exit], leaves the deferred stack alone and
    adds only screen output to the trace. *)
Lemma pollLoop_inv (sel : list SelectCase) : forall (st : RateState) (p : Proc),
  exists (r : Res unit) (body : list Event),
    pollLoop sel st p = (r, mkProc (trace p ++ body) (deferred p)) /\
    forallb isLoopEvent body = true /\
    (r = Val tt \/ r = Blocked) /\
    (r = Val tt <-> existsb (fun c => negb (isTick c)) sel = true).
Proof.
  induction sel as [|c rest IH]; intros st p.
  - exists Blocked, []. rewrite app_nil_r. destruct p. simpl. split; [done|].
    split; [done|]. split; [by right|]. split; discriminate.
  - destruct c as [|now ebpfMap].
    + exists (Val tt), [EvOut (Println exiting)]. rewrite pollLoop_done.
      split; [done|]. split; [done|]. split; [by left|]. done.
    + rewrite pollLoop_tick.
      destruct (IH (lookupAndPrintStats ebpfMap st now).2
                  (mkProc (trace p ++ EvClearScreen ::
                             (EvOut <$> (lookupAndPrintStats ebpfMap st now).1))
                          (deferred p))) as (r & body & Heq & Hbody & Hr & Hiff).
      exists r, (EvClearScreen :: (EvOut <$> (lookupAndPrintStats ebpfMap st now).1) ++ body).
      rewrite Heq. cbn [trace deferred]. split; [by rewrite <- app_assoc|].
      split; [|split; [done|done]].
      cbn [forallb isLoopEvent andb]. rewrite forallb_app, Hbody, andb_true_r.
      apply forallb_forall. intros e He. apply in_map_iff in He as (o & <- & _). done.
Qed.
End PollLoop.

(** C3, as stated, fails: when the read of key 7 fails, the tick displays no
    entry for TC_ACT_REDIRECT, where the previous tick displayed count 17. *)
Lemma C3_counterexample :
  0 < time.Sub (2 * Examples.second) (prevTime Examples.tick1.2) /\
  Examples.table_failing 7 20 (map_get tcKeys "TC_ACT_REDIRECT") = Err "lookup failed" /\
  (exists rate, displayed "TC_ACT_REDIRECT" Examples.tick1.1 = Some (17, rate)) /\
  displayed "TC_ACT_REDIRECT" Examples.tick2_failing.1 = None /\
  displayed "TC_ACT_REDIRECT" Examples.tick2_failing.1 <>
    displayed "TC_ACT_REDIRECT" Examples.tick1.1.
Proof.
  split; [reflexivity|]. split; [reflexivity|].
  split; [eexists; vm_compute; reflexivity|]. split; [reflexivity|].
  vm_compute. discriminate.
Qed.

(** C3 (amended): when on a tick with positive elapsed time the lookup for
    one key fails, the failure is not fatal: it is logged, no entry for that
    key is displayed on that tick and its stored previous count is kept,
    every key whose lookup succeeds shows its updated count and rate, and
    the poll loop goes on to the next [select]. *)
Theorem C3_lookup_failure_nonfatal (ebpfMap : Map) (st : RateState) (now : time.Time)
    (action err : string) (rest : list SelectCase) (p : Proc) :
  0 < time.Sub now (prevTime st) ->
  action ∈ tcKeyOrder ->
  ebpfMap (map_get tcKeys action) = Err err ->
  LogLookupError action err ∈ (lookupAndPrintStats ebpfMap st now).1 /\
  displayed action (lookupAndPrintStats ebpfMap st now).1 = None /\
  prevValues (lookupAndPrintStats ebpfMap st now).2 !! action = prevValues st !! action /\
  (forall other value, other ∈ tcKeyOrder -> ebpfMap (map_get tcKeys other) = Ok value ->
     displayed other (lookupAndPrintStats ebpfMap st now).1 =
     Some (value,
           F64.div (F64.of_Z (wrap_uint64 (value - map_get (prevValues st) other)))
             (time.Seconds (time.Sub now (prevTime st))))) /\
  pollLoop (TickerC now ebpfMap :: rest) st p =
    pollLoop rest (lookupAndPrintStats ebpfMap st now).2
      (mkProc (trace p ++ EvClearScreen :: (EvOut <$> (lookupAndPrintStats ebpfMap st now).1))
              (deferred p)).
Proof.
  intros Hpos Hin He. split; [|split; [|split; [|split]]].
  - rewrite lookupAndPrintStats_pos by done. cbn [fst].
    apply elem_of_cons. right. by apply logged_sampleOutput_err.
  - rewrite lookupAndPrintStats_pos by done. cbn [fst displayed].
    by eapply displayed_sampleOutput_err.
  - rewrite lookupAndPrintStats_pos by done. cbn [snd prevValues].
    by rewrite (sampleLoop_prev_err _ _ _ _ _ He).
  - intros other value Ho Hv. rewrite lookupAndPrintStats_pos by done.
    cbn [fst displayed]. by apply displayed_sampleOutput_ok.
  - apply pollLoop_tick.
Qed.

Lemma C3_lookup_failure_nonfatal_witness :
  LogLookupError "TC_ACT_REDIRECT" "lookup failed" ∈ Examples.tick2_failing.1 /\
  displayed "TC_ACT_REDIRECT" Examples.tick2_failing.1 = None /\
  displayed "TC_ACT_TRAP" Examples.tick2_failing.1 = Some (28, F64.of_Z 10).
Proof.
  destruct (C3_lookup_failure_nonfatal (Examples.table_failing 7 20) Examples.tick1.2
              (2 * Examples.second) "TC_ACT_REDIRECT" "lookup failed" []
              (mkProc [] [])) as (Hlog & Hnone & _ & Hother & _).
  - reflexivity.
  - apply (bool_decide_unpack _). vm_compute. exact I.
  - reflexivity.
  - split; [exact Hlog|]. split; [exact Hnone|].
    etransitivity; [apply (Hother "TC_ACT_TRAP" 28)|].
    + apply (bool_decide_unpack _). vm_compute. exact I.
    + reflexivity.
    + vm_compute. reflexivity.
Defined.

(** ** Display order *)

Lemma filter_sublist {A : Type} (f : A -> bool) (l : list A) :
  sublist (List.filter f l) l.
Proof.
  induction l as [|x l IH]; simpl; [constructor|].
  destruct (f x); by constructor.
Qed.

Lemma filter_all {A : Type} (f : A -> bool) (l : list A) :
  forallb f l = true -> List.filter f l = l.
Proof.
  induction l as [|x l IH]; simpl; [done|].
  destruct (f x); simpl; [|done]. intros H. by rewrite IH.
Qed.

(** C8, as stated, fails: a tick on which one read fails displays eight
    entries, not nine. *)
Lemma C8_counterexample :
  0 < time.Sub (2 * Examples.second) (prevTime Examples.tick1.2) /\
  length (snapshot Examples.tick2_failing.1) = 8%nat /\
  length (snapshot Examples.tick2_failing.1) <> 9%nat.
Proof. split; [reflexivity|]. split; [reflexivity|]. vm_compute. discriminate. Qed.

(** C8 (amended): the canonical list has nine names with keys 0 through 8,
    whatever the storage order of the key table; the names displayed on any
    tick are a subsequence of it in canonical order; on a tick with positive
    elapsed time they are exactly the names whose read succeeded, hence all
    nine, in order, when every read succeeds. *)
Theorem C8_canonical_order (ebpfMap : Map) (st : RateState) (now : time.Time) :
  0 < time.Sub now (prevTime st) ->
  names (lookupAndPrintStats ebpfMap st now).1 =
    List.filter (lookup_ok ebpfMap) tcKeyOrder /\
  (forallb (lookup_ok ebpfMap) tcKeyOrder = true ->
     names (lookupAndPrintStats ebpfMap st now).1 = tcKeyOrder /\
     length (snapshot (lookupAndPrintStats ebpfMap st now).1) = 9%nat) /\
  (forall now', sublist (names (lookupAndPrintStats ebpfMap st now').1) tcKeyOrder) /\
  (fun a => (a, map_get tcKeys a)) <$> tcKeyOrder = tcKeysList /\
  tcKeysList.*2 = [0; 1; 2; 3; 4; 5; 6; 7; 8] /\
  (forall l : list (string * Z), l ≡ₚ tcKeysList -> list_to_map l = tcKeys).
Proof.
  intros Hpos.
  assert (Hn : names (lookupAndPrintStats ebpfMap st now).1 =
               List.filter (lookup_ok ebpfMap) tcKeyOrder).
  { rewrite lookupAndPrintStats_pos by done. cbn [fst].
    change (names (Println header :: ?l)) with (names l). apply names_sampleOutput. }
  split; [exact Hn|]. split; [|split; [|split; [|split]]].
  - intros Hall. rewrite filter_all in Hn by done. split; [exact Hn|].
    transitivity (length (names (lookupAndPrintStats ebpfMap st now).1)).
    + unfold names. by rewrite length_fmap.
    + by rewrite Hn.
  - intros now'. destruct (names_any_tick ebpfMap st now') as [-> | ->].
    + apply sublist_nil_l.
    + apply filter_sublist.
  - vm_compute. reflexivity.
  - reflexivity.
  - intros l Hl. unfold tcKeys. apply list_to_map_proper; [|done].
    rewrite Hl. apply (bool_decide_unpack _). vm_compute. exact I.
Qed.

Lemma C8_canonical_order_witness :
  names Examples.tick1.1 = tcKeyOrder /\
  length (snapshot Examples.tick1.1) = 9%nat /\
  list_to_map (reverse tcKeysList) = tcKeys.
Proof.
  destruct (C8_canonical_order (Examples.table 10) Examples.st0 Examples.second)
    as (_ & Hall & _ & _ & _ & Hperm); [reflexivity|].
  destruct Hall as [Hnames Hlen]; [reflexivity|].
  split; [exact Hnames|]. split; [exact Hlen|].
  apply Hperm. apply reverse_Permutation.
Defined.

(** ** Symbol resolution *)

Section ScanSymbols.
Lemma scanSymbols_ok (insns : list ebpf.Instruction) (sym : string) :
  scanSymbols insns = Ok sym <-> first_symbol_carrier insns sym.
Proof.
  unfold first_symbol_carrier. induction insns as [|i l IH]; simpl.
  - split; [discriminate|]. intros (pre & insn & post & H & _). by destruct pre.
  - destruct (String.eqb_spec (ebpf.Symbol i) "") as [E|E].
    + rewrite IH. split.
      * intros (pre & insn & post & -> & Hpre & Hs & Hne).
        exists (i :: pre), insn, post. split; [done|]. split; [by constructor|done].
      * intros (pre & insn & post & Heq & Hpre & Hs & Hne).
        destruct pre as [|j pre]; simpl in Heq; inversion Heq; subst; [done|].
        exists pre, insn, post. split; [done|]. split; [|done].
        by apply Forall_cons in Hpre as [_ ?].
    + split.
      * intros [= <-]. exists [], i, l. by repeat split.
      * intros (pre & insn & post & Heq & Hpre & Hs & Hne).
        destruct pre as [|j pre]; simpl in Heq; inversion Heq; subst; [done|].
        by apply Forall_cons in Hpre as [? _].
Qed.

Lemma scanSymbols_err (insns : list ebpf.Instruction) (e : string) :
  scanSymbols insns = Err e <->
  e = errNoEntry /\ Forall (fun i => ebpf.Symbol i = "") insns.
Proof.
  induction insns as [|i l IH]; simpl.
  - split; [by intros [= <-]|by intros [-> _]].
  - destruct (String.eqb_spec (ebpf.Symbol i) "") as [E|E].
    + rewrite IH. split; intros [-> H]; (split; [done|]).
      * by constructor.
      * by apply Forall_cons in H as [_ ?].
    + split; [discriminate|]. intros [_ H]. by apply Forall_cons in H as [? _].
Qed.
End ScanSymbols.

(** C6: for a TC-kind program carrying type metadata whose instruction stream
    is [insns], [getFuncName] is a function of the stream that returns the
    symbol of the first instruction in stream order carrying one, and fails,
    with the no-entry-point error, exactly when no instruction carries a
    symbol. *)
Theorem C6_first_symbol (ty : ebpf.ProgramType) (btf : Z)
    (insns : list ebpf.Instruction) :
  ty = ebpf.SchedCLS \/ ty = ebpf.SchedACT ->
  (forall sym,
     getFuncName (ebpf.mkProgram (Ok (ebpf.mkProgramInfo ty (Some btf) (Ok insns)))) = Ok sym
     <-> first_symbol_carrier insns sym) /\
  (getFuncName (ebpf.mkProgram (Ok (ebpf.mkProgramInfo ty (Some btf) (Ok insns))))
     = Err errNoEntry
   <-> Forall (fun i => ebpf.Symbol i = "") insns) /\
  (forall e,
     getFuncName (ebpf.mkProgram (Ok (ebpf.mkProgramInfo ty (Some btf) (Ok insns)))) = Err e
     -> e = errNoEntry) /\
  (forall sym sym',
     first_symbol_carrier insns sym -> first_symbol_carrier insns sym' -> sym = sym').
Proof.
  intros Hty.
  assert (Hg : getFuncName (ebpf.mkProgram (Ok (ebpf.mkProgramInfo ty (Some btf) (Ok insns))))
               = scanSymbols insns).
  { unfold getFuncName. cbn [ebpf.Info ebpf.Type_ ebpf.BTFID ebpf.Instructions].
    destruct Hty as [-> | ->]; reflexivity. }
  rewrite Hg. split; [|split; [|split]].
  - intros sym. apply scanSymbols_ok.
  - rewrite scanSymbols_err. tauto.
  - intros e He. by apply scanSymbols_err in He as [-> _].
  - intros sym sym' H1 H2. apply scanSymbols_ok in H1, H2. congruence.
Qed.

(** Scenario A: the classifier whose entry symbol is [cls_foo]. *)
Lemma C6_first_symbol_witness :
  getFuncName Examples.clsProg = Ok "cls_foo" /\
  first_symbol_carrier Examples.clsInsns "cls_foo".
Proof.
  destruct (C6_first_symbol ebpf.SchedCLS 12 Examples.clsInsns) as (Hok & _);
    [by left|].
  split; [reflexivity|]. apply Hok. reflexivity.
Defined.

(** The kind check is the first thing [getFuncName] does with the info. *)
Lemma getFuncName_not_tc (prog : ebpf.Program) (info : ebpf.ProgramInfo) :
  ebpf.Info prog = Ok info ->
  ebpf.Type_ info <> ebpf.SchedCLS -> ebpf.Type_ info <> ebpf.SchedACT ->
  getFuncName prog = Err errNotTC.
Proof.
  intros Hi H1 H2. unfold getFuncName. rewrite Hi.
  apply Z.eqb_neq in H1, H2. by rewrite H1, H2.
Qed.

(** C9: the kind check comes first: a program whose kind is not a TC kind is
    reported as not a TC program whatever its type metadata and its
    instruction stream are: absent, unreadable or without any symbol. *)
Theorem C9_kind_check_first (ty : ebpf.ProgramType) (btf : option Z)
    (insns : result (list ebpf.Instruction)) :
  ty <> ebpf.SchedCLS -> ty <> ebpf.SchedACT ->
  getFuncName (ebpf.mkProgram (Ok (ebpf.mkProgramInfo ty btf insns))) = Err errNotTC.
Proof.
  intros H1 H2.
  by apply (getFuncName_not_tc _ (ebpf.mkProgramInfo ty btf insns)).
Qed.

Lemma C9_kind_check_first_witness :
  getFuncName Examples.xdpProg = Err errNotTC /\
  getFuncName (ebpf.mkProgram (Ok (ebpf.mkProgramInfo ebpf.SchedCLS None (Ok []))))
    = Err errNoBTF.
Proof.
  split; [|reflexivity].
  apply (C9_kind_check_first ebpf.XDP None (Ok [])); discriminate.
Defined.

(** ** The session *)

Section Session.
Lemma times_app (f : Event -> bool) (l1 l2 : list Event) :
  times f (l1 ++ l2) = (times f l1 + times f l2)%nat.
Proof. unfold times. by rewrite List.filter_app, length_app. Qed.

(** Loop output contains no start-up call and no release. *)
Lemma times_loop_events (f : Event -> bool) (body : list Event) :
  (forall e, isLoopEvent e = true -> f e = false) ->
  forallb isLoopEvent body = true -> times f body = 0%nat.
Proof.
  intros Hf. unfold times. induction body as [|e l IH]; simpl; [done|].
  intros [He Hl]%andb_true_iff. by rewrite (Hf e He), IH.
Qed.

(** After a successful start-up [main] is in the poll loop with nine
    start-up events behind it and five deferred calls on the stack. *)
Lemma main_started (env : Env) (prog : ebpf.Program) (funcName : string) :
  tcProgID env <> 0 ->
  RemoveMemlock env = Ok tt -> loadTcmonitor env = Ok tt ->
  NewProgramFromID env (tcProgID env) = Ok prog ->
  getFuncName prog = Ok funcName ->
  LoadAndAssign env prog funcName = Loaded ->
  AttachTracing env = Ok tt ->
  main env (mkProc [] []) =
  pollLoop (selects env) (mkRateState ∅ (startTime env))
    (mkProc [ EvNotifyContext; EvRemoveMemlock; EvLoadSpec;
              EvNewProgramFromID (tcProgID env); EvSetAttachTarget funcName;
              EvLoadAndAssign; EvAttachTracing; EvPrintTracing (tcProgID env);
              EvNewTicker ]
            [ EvTickerStop; EvLinkClose; EvObjClose; EvProgClose; EvStop ]).
Proof.
  intros Hid Hm Hs Hp Hf Hl Ha. unfold main.
  apply Z.eqb_neq in Hid. rewrite Hid, Hm, Hs, Hp, Hf, Hl, Ha. reflexivity.
Qed.
End Session.

(** C7: when the target program's kind is neither of the two TC kinds,
    resolution fails with the not-a-TC-program error, the run performs no
    probe load and no attach, and the process exits with code 1; when
    start-up reaches the resolution, the last thing the process does is to
    report that error. *)
Theorem C7_non_tc_program_rejected (env : Env) (prog : ebpf.Program)
    (info : ebpf.ProgramInfo) :
  NewProgramFromID env (tcProgID env) = Ok prog ->
  ebpf.Info prog = Ok info ->
  ebpf.Type_ info <> ebpf.SchedCLS -> ebpf.Type_ info <> ebpf.SchedACT ->
  getFuncName prog = Err errNotTC /\
  times isLoad (run (main env)).1 = 0%nat /\
  times isAttach (run (main env)).1 = 0%nat /\
  (run (main env)).2 = Exit 1 /\
  (tcProgID env <> 0 -> RemoveMemlock env = Ok tt -> loadTcmonitor env = Ok tt ->
   last (run (main env)).1 =
     Some (EvLogFatal ("Failed to get function name: " +:+ errNotTC))).
Proof.
  intros Hp Hi H1 H2.
  assert (Hg : getFuncName prog = Err errNotTC).
  { by apply (getFuncName_not_tc prog info). }
  split; [exact Hg|].
  unfold run, main. rewrite Hp, Hg.
  destruct (tcProgID env =? 0) eqn:Hid.
  { repeat split; try reflexivity. intros Hne. apply Z.eqb_eq in Hid. done. }
  destruct (RemoveMemlock env) as [[]|e1].
  2:{ repeat split; try reflexivity. discriminate. }
  destruct (loadTcmonitor env) as [[]|e2].
  2:{ repeat split; try reflexivity. discriminate. }
  repeat split; reflexivity.
Qed.

(** Scenario C: program id 7 is an XDP program. *)
Lemma C7_non_tc_program_rejected_witness :
  getFuncName Examples.xdpProg = Err errNotTC /\
  run (main (Examples.env_of 7 Examples.xdpProg [CtxDone])) =
    ([ EvNotifyContext; EvRemoveMemlock; EvLoadSpec; EvNewProgramFromID 7;
       EvLogFatal ("Failed to get function name: " +:+ errNotTC) ],
     Exit 1).
Proof.
  destruct (C7_non_tc_program_rejected
              (Examples.env_of 7 Examples.xdpProg [CtxDone]) Examples.xdpProg
              (ebpf.mkProgramInfo ebpf.XDP None (Ok [])))
    as (Hg & _ & _ & _ & _).
  - reflexivity.
  - reflexivity.
  - discriminate.
  - discriminate.
  - split; [exact Hg | reflexivity].
Defined.

(** C2, as stated, fails: when symbol resolution fails, the process exits
    with code 1 through [log.Fatalf] and no deferred call runs; the handle
    opened by [NewProgramFromID] is never closed, and there is no probe
    attachment to release. *)
Lemma C2_counterexample :
  (run (main (Examples.env_of 7 Examples.xdpProg [CtxDone]))).2 = Exit 1 /\
  In (EvNewProgramFromID 7) (run (main (Examples.env_of 7 Examples.xdpProg [CtxDone]))).1 /\
  times isProgClose (run (main (Examples.env_of 7 Examples.xdpProg [CtxDone]))).1 = 0%nat /\
  times isLinkClose (run (main (Examples.env_of 7 Examples.xdpProg [CtxDone]))).1 = 0%nat /\
  times isProgClose (run (main (Examples.env_of 7 Examples.xdpProg [CtxDone]))).1 <> 1%nat.
Proof.
  split; [reflexivity|]. split; [simpl; tauto|]. split; [reflexivity|].
  split; [reflexivity|]. vm_compute. discriminate.
Qed.

(** C2 (amended): after a successful start-up the process leaves the poll
    loop only by cancellation: the loop has no fatal exit, and the run ends,
    with exit code 0, exactly when the [select] takes the cancellation case.
    On that path the deferred calls run in reverse order of acquisition as
    the last five events of the run, and the probe attachment release (link
    and loaded object) and the target-program handle release are each
    executed exactly once. *)
Theorem C2_release_on_cancellation (env : Env) (prog : ebpf.Program)
    (funcName : string) :
  tcProgID env <> 0 ->
  RemoveMemlock env = Ok tt -> loadTcmonitor env = Ok tt ->
  NewProgramFromID env (tcProgID env) = Ok prog ->
  getFuncName prog = Ok funcName ->
  LoadAndAssign env prog funcName = Loaded ->
  AttachTracing env = Ok tt ->
  ((run (main env)).2 = Exit 0 \/ (run (main env)).2 = Running) /\
  ((run (main env)).2 = Exit 0 <->
     existsb (fun c => negb (isTick c)) (selects env) = true) /\
  ((run (main env)).2 = Exit 0 ->
     (exists body,
        (run (main env)).1 =
        body ++ [EvTickerStop; EvLinkClose; EvObjClose; EvProgClose; EvStop]) /\
     times isLinkClose (run (main env)).1 = 1%nat /\
     times isObjClose (run (main env)).1 = 1%nat /\
     times isProgClose (run (main env)).1 = 1%nat).
Proof.
  intros Hid Hm Hs Hp Hf Hl Ha. unfold run.
  rewrite (main_started env prog funcName) by done.
  destruct (pollLoop_inv (selects env) (mkRateState ∅ (startTime env))
              (mkProc [ EvNotifyContext; EvRemoveMemlock; EvLoadSpec;
                        EvNewProgramFromID (tcProgID env); EvSetAttachTarget funcName;
                        EvLoadAndAssign; EvAttachTracing; EvPrintTracing (tcProgID env);
                        EvNewTicker ]
                      [ EvTickerStop; EvLinkClose; EvObjClose; EvProgClose; EvStop ]))
    as (r & body & -> & Hbody & Hr & Hiff).
  cbn [trace deferred].
  destruct Hr as [-> | ->]; cbn [fst snd].
  - split; [by left|]. split; [by rewrite <- Hiff|]. intros _.
    split; [by eexists|].
    rewrite !times_app.
    rewrite !(times_loop_events _ body) by (done || by intros []).
    done.
  - split; [by right|]. split; [|discriminate].
    rewrite <- Hiff. split; discriminate.
Qed.

(** Two ticks, then the interrupt. *)
Lemma C2_release_on_cancellation_witness :
  exists body,
    run (main (Examples.env_of 55 Examples.clsProg
                 [TickerC Examples.second (Examples.table 10);
                  TickerC (2 * Examples.second) (Examples.table 20);
                  CtxDone])) =
    (body ++ [EvTickerStop; EvLinkClose; EvObjClose; EvProgClose; EvStop], Exit 0).
Proof.
  destruct (C2_release_on_cancellation
              (Examples.env_of 55 Examples.clsProg
                 [TickerC Examples.second (Examples.table 10);
                  TickerC (2 * Examples.second) (Examples.table 20);
                  CtxDone])
              Examples.clsProg "cls_foo") as (_ & Hiff & Hrel);
    try reflexivity; [discriminate|].
  assert (Hexit : (run (main (Examples.env_of 55 Examples.clsProg
                 [TickerC Examples.second (Examples.table 10);
                  TickerC (2 * Examples.second) (Examples.table 20);
                  CtxDone]))).2 = Exit 0) by (apply Hiff; reflexivity).
  destruct (Hrel Hexit) as ((body & Hbody) & _).
  exists body. rewrite <- Hbody, <- Hexit. apply surjective_pairing.
Defined.

(** * Further properties of the code *)

(** ** The zero-elapsed guard is exact *)

Section NegativeDurations.
Lemma binary_round_aux_opp (m e : Z) (l : location) :
  binary_round_aux 53 1024 true m e l = SFopp (binary_round_aux 53 1024 false m e l).
Proof.
  unfold binary_round_aux.
  destruct (shr_fexp 53 1024 m e l) as [mrs1 e1].
  destruct (shr_fexp 53 1024 _ e1 loc_Exact) as [mrs2 e2].
  destruct (shr_m mrs2); [done| |done]. by destruct (e2 <=? 1024 - 53).
Qed.

Lemma of_Z_opp (p : positive) : F64.of_Z (Z.neg p) = SFopp (F64.of_Z (Z.pos p)).
Proof.
  unfold F64.of_Z, F64.prec, F64.emax, binary_normalize, binary_round.
  destruct (shl_align p 0 _) as [mz ez]. apply binary_round_aux_opp.
Qed.

Lemma div_opp_l (m1 m2 : positive) (e1 e2 : Z) :
  F64.div (S754_finite true m1 e1) (S754_finite false m2 e2) =
  SFopp (F64.div (S754_finite false m1 e1) (S754_finite false m2 e2)).
Proof.
  unfold F64.div, F64.prec, F64.emax, SFdiv.
  destruct (SFdiv_core_binary 53 1024 (Z.pos m1) e1 (Z.pos m2) e2) as [[mz ez] lz].
  apply binary_round_aux_opp.
Qed.

Lemma add_opp (m1 m2 : positive) (e1 e2 : Z) :
  F64.add (S754_finite true m1 e1) (S754_finite true m2 e2) =
  SFopp (F64.add (S754_finite false m1 e1) (S754_finite false m2 e2)).
Proof.
  unfold F64.add, F64.prec, F64.emax, SFadd, cond_Zopp.
  destruct (shl_align m1 e1 _) as [a ea]. destruct (shl_align m2 e2 _) as [b eb].
  cbn [fst]. change (- Z.pos a + - Z.pos b) with (Z.neg (a + b)).
  change (Z.pos a + Z.pos b) with (Z.pos (a + b)).
  unfold binary_normalize, binary_round.
  destruct (shl_align (a + b) _ _) as [mz ez]. apply binary_round_aux_opp.
Qed.

(** The seconds of a negative duration are the negated seconds of its
    absolute value. *)
Lemma Seconds_opp (d : Z) :
  0 < d <= 2 ^ 63 ->
  exists m e, time.Seconds d = S754_finite false m e /\
              time.Seconds (- d) = S754_finite true m e.
Proof.
  intros [Hd Hd']. unfold time.Seconds.
  rewrite Z.quot_opp_l, Z.rem_opp_l by (unfold time.Second; lia).
  rewrite Z.quot_div_nonneg, Z.rem_mod_nonneg by (unfold time.Second; lia).
  assert (Hs : 0 <= d / time.Second < 2 ^ 34).
  { split; [apply Z.div_pos; unfold time.Second; lia|].
    apply Z.div_lt_upper_bound; unfold time.Second; lia. }
  assert (Hn : 0 <= d mod time.Second < 2 ^ 30)
    by (pose proof (Z.mod_pos_bound d time.Second); unfold time.Second in *; lia).
  assert (Hne : d / time.Second <> 0 \/ d mod time.Second <> 0).
  { pose proof (Z.div_mod d time.Second). unfold time.Second in *. lia. }
  destruct of_Z_1e9_bounded as (mE & eE & HE & HEl & HEh). rewrite HE.
  set (s := d / time.Second) in *. set (n := d mod time.Second) in *.
  destruct s as [|ps|ps]; [|destruct n as [|pn|pn]|]; try lia.
  - (* less than a second *)
    destruct n as [|pn|pn]; try lia.
    change (- Z.pos pn) with (Z.neg pn). rewrite of_Z_opp.
    destruct (of_Z_bounded (Z.pos pn) 30) as (mN & eN & HN & HNl & HNh); try lia.
    rewrite HN. cbn [SFopp negb]. rewrite div_opp_l.
    destruct (div_bounded (-52) 31 (-23) 30 (S754_finite false mN eN) (S754_finite false mE eE))
      as (mB & eB & HB & _); try lia.
    { by exists mN, eN. }
    { by exists mE, eE. }
    rewrite HB. by exists mB, eB.
  - (* whole seconds *)
    change (- Z.pos ps) with (Z.neg ps). rewrite of_Z_opp.
    destruct (of_Z_bounded (Z.pos ps) 34) as (mA & eA & HA & _); try lia.
    rewrite HA. by exists mA, eA.
  - change (- Z.pos ps) with (Z.neg ps). change (- Z.pos pn) with (Z.neg pn).
    rewrite !of_Z_opp.
    destruct (of_Z_bounded (Z.pos ps) 34) as (mA & eA & HA & HAl & HAh); try lia.
    destruct (of_Z_bounded (Z.pos pn) 30) as (mN & eN & HN & HNl & HNh); try lia.
    rewrite HA, HN. cbn [SFopp negb]. rewrite div_opp_l.
    destruct (div_bounded (-52) 31 (-23) 30 (S754_finite false mN eN) (S754_finite false mE eE))
      as (mB & eB & HB & HBl & HBh); try lia.
    { by exists mN, eN. }
    { by exists mE, eE. }
    rewrite HB. cbn [SFopp negb]. rewrite add_opp.
    destruct (add_bounded (-52) 35 (-135) 55 (S754_finite false mA eA) (S754_finite false mB eB))
      as (mS & eS & HS & _); try lia.
    { by exists mA, eA. }
    { exists mB, eB. split; [done|]. lia. }
    rewrite HS. by exists mS, eS.
Qed.

(** No duration other than zero has [Seconds() == 0]. *)
Lemma Seconds_eqb_zero (d : Z) :
  is_int64 d -> (F64.eqb (time.Seconds d) F64.zero = true <-> d = 0).
Proof.
  intros [Hlo Hhi]. split; [|by intros ->].
  intros H. destruct (Z.lt_trichotomy d 0) as [Hneg|[->|Hpos]]; [|done|].
  - destruct (Seconds_opp (- d)) as (m & e & _ & Hd); [lia|].
    rewrite Z.opp_involutive in Hd. by rewrite Hd in H.
  - destruct (Seconds_opp d) as (m & e & Hd & _); [lia|]. by rewrite Hd in H.
Qed.
End NegativeDurations.

Section TickFacts.
Variable ebpfMap : Map.
Variable st : RateState.
Variable now : time.Time.

(** A tick with non-zero elapsed time, of either sign, runs the loop. *)
Lemma lookupAndPrintStats_nonzero :
  time.Sub now (prevTime st) <> 0 ->
  lookupAndPrintStats ebpfMap st now =
  (Println header ::
     (sampleOutput ebpfMap (time.Seconds (time.Sub now (prevTime st))) (prevValues st)
        <$> tcKeyOrder),
   mkRateState
     (sampleLoop ebpfMap (time.Seconds (time.Sub now (prevTime st))) tcKeyOrder
        ([Println header], prevValues st)).2
     now).
Proof.
  intros H. unfold lookupAndPrintStats.
  destruct (F64.eqb _ F64.zero) eqn:E.
  - apply Seconds_eqb_zero in E; [done | apply Sub_int64].
  - by rewrite (sampleLoop_out _ _ _ NoDup_tcKeyOrder).
Qed.

Lemma Sub_nonneg (t u : time.Time) : u <= t -> 0 <= time.Sub t u.
Proof.
  intros H. unfold time.Sub, time.subMono, time.maxDuration, time.minDuration.
  destruct (wrap_int64 (t - u) <? 0) eqn:E1, (t >? u) eqn:E2; simpl; try lia.
  - assert (t = u) by lia. subst. rewrite Z.sub_diag in E1. done.
  - destruct (wrap_int64 (t - u) >? 0) eqn:E3, (t <? u) eqn:E4; simpl; lia.
  - destruct (wrap_int64 (t - u) >? 0) eqn:E3, (t <? u) eqn:E4; simpl; lia.
Qed.

Lemma Sub_zero (t u : time.Time) :
  is_int64 t -> is_int64 u -> time.Sub t u = 0 -> t = u.
Proof.
  unfold is_int64, time.Sub, time.subMono, time.maxDuration, time.minDuration, wrap_int64.
  intros Ht Hu.
  destruct (_ && _); [lia|]. destruct (_ && _); [lia|]. intros H.
  pose proof (Z.div_mod (t - u + 2 ^ 63) (2 ^ 64) ltac:(lia)) as Hdm.
  assert (Hq : (t - u + 2 ^ 63) / 2 ^ 64 = 0); [|lia].
  apply Z.div_small. lia.
Qed.
End TickFacts.

(** X1: the guard [deltaTime == 0] fires exactly when the elapsed duration
    is zero nanoseconds: no other duration converts to 0.0 seconds.  The
    call prints the bare header if and only if no time has elapsed;
    otherwise it prints the header and one line per canonical key and
    stores the time of the tick. *)
Theorem X1_guard_exact (ebpfMap : Map) (st : RateState) (now : time.Time) :
  ((lookupAndPrintStats ebpfMap st now).1 = [Println header] <->
     time.Sub now (prevTime st) = 0) /\
  (time.Sub now (prevTime st) <> 0 ->
     length (lookupAndPrintStats ebpfMap st now).1 = 10%nat /\
     prevTime (lookupAndPrintStats ebpfMap st now).2 = now).
Proof.
  assert (Hnz : time.Sub now (prevTime st) <> 0 ->
     length (lookupAndPrintStats ebpfMap st now).1 = 10%nat /\
     prevTime (lookupAndPrintStats ebpfMap st now).2 = now).
  { intros H. rewrite lookupAndPrintStats_nonzero by done. cbn [fst snd prevTime].
    split; [|done]. cbn [length]. by rewrite length_fmap. }
  split; [|exact Hnz]. split.
  - intros Hout. destruct (Z.eq_dec (time.Sub now (prevTime st)) 0) as [|Hne]; [done|].
    destruct (Hnz Hne) as [Hlen _]. by rewrite Hout in Hlen.
  - intros H. by rewrite lookupAndPrintStats_zero.
Qed.

Lemma X1_guard_exact_witness :
  length Examples.tick1.1 = 10%nat /\ prevTime Examples.tick1.2 = Examples.second.
Proof.
  apply (X1_guard_exact (Examples.table 10) Examples.st0 Examples.second).
  vm_compute. discriminate.
Defined.

(** X2: with clock readings in range, the stored timestamp after a call is
    the time of that call, on every tick, skipped or not. *)
Theorem X2_timestamp_follows_clock (ebpfMap : Map) (st : RateState) (now : time.Time) :
  is_int64 now -> is_int64 (prevTime st) ->
  prevTime (lookupAndPrintStats ebpfMap st now).2 = now.
Proof.
  intros Hn Hp. destruct (Z.eq_dec (time.Sub now (prevTime st)) 0) as [Hz|Hnz].
  - rewrite lookupAndPrintStats_zero by done. symmetry. by apply Sub_zero.
  - by rewrite lookupAndPrintStats_nonzero.
Qed.

Lemma X2_timestamp_follows_clock_witness :
  prevTime Examples.tick2_same_instant.2 = Examples.second.
Proof.
  apply (X2_timestamp_follows_clock (Examples.table 20) Examples.tick1.2 Examples.second).
  - vm_compute. split; [discriminate | reflexivity].
  - vm_compute. split; [discriminate | reflexivity].
Defined.

Lemma logged_sampleOutput (ebpfMap : Map) (deltaTime : float64) (prev : gmap string Z)
    (actions : list string) :
  logged (sampleOutput ebpfMap deltaTime prev <$> actions) =
  omap (lookup_err ebpfMap) actions.
Proof.
  unfold logged. induction actions as [|h l IH]; [done|].
  simpl. unfold sampleOutput at 1, lookup_err at 1.
  destruct (ebpfMap (map_get tcKeys h)); simpl; [done|by f_equal].
Qed.

Lemma snapshot_logged_length (ebpfMap : Map) (deltaTime : float64)
    (prev : gmap string Z) (actions : list string) :
  (length (snapshot (sampleOutput ebpfMap deltaTime prev <$> actions)) +
   length (logged (sampleOutput ebpfMap deltaTime prev <$> actions)))%nat =
  length actions.
Proof.
  unfold snapshot, logged. induction actions as [|h l IH]; [done|].
  rewrite fmap_cons. cbn [omap list_omap].
  assert (H : (exists v r, sampleOutput ebpfMap deltaTime prev h = PrintStat h v r) \/
              (exists e, sampleOutput ebpfMap deltaTime prev h = LogLookupError h e)).
  { unfold sampleOutput. destruct (ebpfMap _); eauto. }
  destruct H as [(v & r & ->)|(e & ->)]; cbn [stat logError length]; lia.
Qed.

(** X3: on a tick with non-zero elapsed time every canonical key is accounted
    for exactly once: the errors logged are those of the keys whose read
    failed, in canonical order, and displayed entries plus logged errors
    number nine. *)
Theorem X3_every_key_accounted (ebpfMap : Map) (st : RateState) (now : time.Time) :
  time.Sub now (prevTime st) <> 0 ->
  logged (lookupAndPrintStats ebpfMap st now).1 = omap (lookup_err ebpfMap) tcKeyOrder /\
  (length (snapshot (lookupAndPrintStats ebpfMap st now).1) +
   length (logged (lookupAndPrintStats ebpfMap st now).1))%nat = 9%nat.
Proof.
  intros H. rewrite lookupAndPrintStats_nonzero by done. cbn [fst].
  change (logged (Println header :: ?l)) with (logged l).
  change (snapshot (Println header :: ?l)) with (snapshot l).
  split; [apply logged_sampleOutput|]. by rewrite snapshot_logged_length.
Qed.

Lemma X3_every_key_accounted_witness :
  logged Examples.tick2_failing.1 = [("TC_ACT_REDIRECT", "lookup failed")] /\
  (length (snapshot Examples.tick2_failing.1) +
   length (logged Examples.tick2_failing.1))%nat = 9%nat.
Proof.
  destruct (X3_every_key_accounted (Examples.table_failing 7 20) Examples.tick1.2
              (2 * Examples.second)) as [Hlog Hlen].
  - vm_compute. discriminate.
  - split; [|exact Hlen]. etransitivity; [exact Hlog|]. vm_compute. reflexivity.
Defined.

(** X4: the stored counts only ever come from reads of canonical keys: a
    count found in the state after a call was there before, or is the count
    that call read for a canonical key. *)
Theorem X4_state_holds_read_counts (ebpfMap : Map) (st : RateState) (now : time.Time)
    (k : string) (v : Z) :
  prevValues (lookupAndPrintStats ebpfMap st now).2 !! k = Some v ->
  prevValues st !! k = Some v \/
  (k ∈ tcKeyOrder /\ ebpfMap (map_get tcKeys k) = Ok v).
Proof.
  destruct (Z.eq_dec (time.Sub now (prevTime st)) 0) as [Hz|Hnz].
  - rewrite lookupAndPrintStats_zero by done. by left.
  - rewrite lookupAndPrintStats_nonzero by done. cbn [snd prevValues].
    destruct (decide (k ∈ tcKeyOrder)) as [Hin|Hnotin].
    + destruct (ebpfMap (map_get tcKeys k)) as [v'|e] eqn:Hk.
      * rewrite (sampleLoop_prev_ok _ _ _ _ _ Hk Hin). intros [= ->]. by right.
      * rewrite (sampleLoop_prev_err _ _ _ _ _ Hk). by left.
    + rewrite sampleLoop_prev_notin by done. by left.
Qed.

Lemma X4_state_holds_read_counts_witness :
  prevValues Examples.st0 !! "TC_ACT_TRAP" = Some 18 \/
  ("TC_ACT_TRAP" ∈ tcKeyOrder /\
   Examples.table 10 (map_get tcKeys "TC_ACT_TRAP") = Ok 18).
Proof.
  apply (X4_state_holds_read_counts (Examples.table 10) Examples.st0 Examples.second).
  vm_compute. reflexivity.
Defined.

Lemma okRate_sampleOutput (ebpfMap : Map) (deltaTime : float64) (prev : gmap string Z)
    (actions : list string) :
  F64.bounded_pos (-187) 57 deltaTime ->
  forallb okRate (sampleOutput ebpfMap deltaTime prev <$> actions) = true.
Proof.
  intros Hb. induction actions as [|h l IH]; [done|].
  rewrite fmap_cons. cbn [forallb]. rewrite IH, andb_true_r.
  unfold sampleOutput. destruct (ebpfMap _) as [value|e]; [|done].
  cbn [okRate]. apply andb_true_iff.
  apply rate_nonneg; [|done]. unfold wrap_uint64.
  apply Z.mod_pos_bound. done.
Qed.

(** One call on a clock that did not go back prints only finite rates that
    are not negative, whatever the stored counts and the counts read are. *)
Lemma okRate_tick (ebpfMap : Map) (st : RateState) (now : time.Time) :
  prevTime st <= now ->
  forallb okRate (lookupAndPrintStats ebpfMap st now).1 = true.
Proof.
  intros Hle. pose proof (Sub_nonneg now (prevTime st) Hle) as Hnn.
  destruct (Z.eq_dec (time.Sub now (prevTime st)) 0) as [Hz|Hnz].
  - by rewrite lookupAndPrintStats_zero.
  - rewrite lookupAndPrintStats_nonzero by done. cbn [fst forallb okRate andb].
    apply okRate_sampleOutput, deltaTime_bounded. lia.
Qed.

Lemma prevTime_tick_le (ebpfMap : Map) (st : RateState) (now : time.Time) :
  prevTime st <= now -> prevTime (lookupAndPrintStats ebpfMap st now).2 <= now.
Proof.
  intros Hle. unfold lookupAndPrintStats. destruct (F64.eqb _ _); cbn [snd prevTime]; lia.
Qed.

(** X5: two ticks compose: when a key is read on two ticks, each later than
    the one before, the rate displayed on the second is computed from the
    count read on the first and the time between the two ticks. *)
Theorem X5_consecutive_ticks (m1 m2 : Map) (st : RateState) (now1 now2 : time.Time)
    (action : string) (v1 v2 : Z) :
  0 < time.Sub now1 (prevTime st) ->
  0 < time.Sub now2 now1 ->
  action ∈ tcKeyOrder ->
  m1 (map_get tcKeys action) = Ok v1 ->
  m2 (map_get tcKeys action) = Ok v2 ->
  displayed action (lookupAndPrintStats m2 (lookupAndPrintStats m1 st now1).2 now2).1 =
  Some (v2, F64.div (F64.of_Z (wrap_uint64 (v2 - v1)))
              (time.Seconds (time.Sub now2 now1))).
Proof.
  intros H1 H2 Hin Hv1 Hv2.
  rewrite (lookupAndPrintStats_pos m1 st now1) by done. cbn [snd].
  rewrite lookupAndPrintStats_pos by done. cbn [fst displayed prevTime prevValues].
  rewrite (displayed_sampleOutput_ok _ _ _ _ _ v2) by done.
  unfold map_get at 1. by rewrite (sampleLoop_prev_ok _ _ _ _ _ Hv1 Hin).
Qed.

Lemma X5_consecutive_ticks_witness :
  displayed "TC_ACT_TRAP"
    (lookupAndPrintStats (Examples.table 20) Examples.tick1.2 (2 * Examples.second)).1 =
  Some (28, F64.of_Z 10).
Proof.
  etransitivity;
    [apply (X5_consecutive_ticks (Examples.table 10) (Examples.table 20) Examples.st0
              Examples.second (2 * Examples.second) "TC_ACT_TRAP" 18 28)|].
  - reflexivity.
  - reflexivity.
  - apply (bool_decide_unpack _). vm_compute. exact I.
  - reflexivity.
  - reflexivity.
  - vm_compute. reflexivity.
Defined.

(** X6: a failed read leaves a stale count behind: when the read of a key
    fails on one tick and succeeds on the next, the rate displayed then is
    the count's increase since the state before the failed tick, divided by
    the time since the failed tick only. *)
Theorem X6_rate_after_failed_read (m1 m2 : Map) (st : RateState) (now1 now2 : time.Time)
    (action err : string) (v2 : Z) :
  0 < time.Sub now1 (prevTime st) ->
  0 < time.Sub now2 now1 ->
  action ∈ tcKeyOrder ->
  m1 (map_get tcKeys action) = Err err ->
  m2 (map_get tcKeys action) = Ok v2 ->
  displayed action (lookupAndPrintStats m2 (lookupAndPrintStats m1 st now1).2 now2).1 =
  Some (v2, F64.div (F64.of_Z (wrap_uint64 (v2 - map_get (prevValues st) action)))
              (time.Seconds (time.Sub now2 now1))).
Proof.
  intros H1 H2 Hin Hv1 Hv2.
  rewrite (lookupAndPrintStats_pos m1 st now1) by done. cbn [snd].
  rewrite lookupAndPrintStats_pos by done. cbn [fst displayed prevTime prevValues].
  rewrite (displayed_sampleOutput_ok _ _ _ _ _ v2) by done.
  unfold map_get. by rewrite (sampleLoop_prev_err _ _ _ _ _ Hv1).
Qed.

(** After counts 10 + k, a tick on which key 7 fails, then counts 30 + k one
    second later: the rate shown for TC_ACT_REDIRECT is 20 per second,
    though two seconds passed since 17 was read. *)
Lemma X6_rate_after_failed_read_witness :
  displayed "TC_ACT_REDIRECT"
    (lookupAndPrintStats (Examples.table 30) Examples.tick2_failing.2
       (3 * Examples.second)).1 =
  Some (37, F64.of_Z 20).
Proof.
  etransitivity;
    [apply (X6_rate_after_failed_read (Examples.table_failing 7 20) (Examples.table 30)
              Examples.tick1.2 (2 * Examples.second) (3 * Examples.second)
              "TC_ACT_REDIRECT" "lookup failed" 37)|].
  - reflexivity.
  - reflexivity.
  - apply (bool_decide_unpack _). vm_compute. exact I.
  - reflexivity.
  - reflexivity.
  - vm_compute. reflexivity.
Defined.

(** X7: for counts in the [uint64] range and positive elapsed time the rate
    displayed is [+0.0] exactly when the count read equals the stored one;
    any other count gives a strictly positive rate: no change is ever
    rounded away to zero. *)
Theorem X7_zero_rate_iff_unchanged (ebpfMap : Map) (st : RateState) (now : time.Time)
    (action : string) (value : Z) :
  0 < time.Sub now (prevTime st) ->
  action ∈ tcKeyOrder ->
  ebpfMap (map_get tcKeys action) = Ok value ->
  0 <= value < 2 ^ 64 ->
  0 <= map_get (prevValues st) action < 2 ^ 64 ->
  exists rate : float64,
    displayed action (lookupAndPrintStats ebpfMap st now).1 = Some (value, rate) /\
    (rate = F64.zero <-> value = map_get (prevValues st) action) /\
    (value <> map_get (prevValues st) action -> F64.positive rate = true).
Proof.
  intros Hpos Hin Hv Hr Hp. eexists. split.
  { rewrite lookupAndPrintStats_pos by done. cbn [fst displayed].
    by apply displayed_sampleOutput_ok. }
  pose proof (deltaTime_bounded _ _ Hpos) as Hb.
  set (prev := map_get (prevValues st) action) in *.
  assert (Hne : value <> prev ->
     exists m e, F64.div (F64.of_Z (wrap_uint64 (value - prev)))
                   (time.Seconds (time.Sub now (prevTime st))) = S754_finite false m e).
  { intros Hne.
    assert (Hw : 0 < wrap_uint64 (value - prev) < 2 ^ 64).
    { unfold wrap_uint64. pose proof (Z.mod_pos_bound (value - prev) (2 ^ 64) eq_refl).
      destruct (Z.eq_dec ((value - prev) mod 2 ^ 64) 0) as [E|E]; [|lia].
      apply Z.mod_divide in E; [|lia]. destruct E as [q E]. lia. }
    destruct (rate_positive _ _ Hw Hb) as (m & e & -> & _). eauto. }
  split; [split|].
  - intros Hz. destruct (Z.eq_dec value prev) as [|Hd]; [done|].
    destruct (Hne Hd) as (m & e & E). by rewrite E in Hz.
  - intros ->. rewrite Z.sub_diag. destruct Hb as (m & e & -> & _). reflexivity.
  - intros Hd. destruct (Hne Hd) as (m & e & ->). reflexivity.
Qed.

Lemma X7_zero_rate_iff_unchanged_witness :
  exists rate : float64,
    displayed "TC_ACT_OK" (lookupAndPrintStats (Examples.table 10) Examples.tick1.2
                            (2 * Examples.second)).1 = Some (10, rate) /\
    rate = F64.zero.
Proof.
  destruct (X7_zero_rate_iff_unchanged (Examples.table 10) Examples.tick1.2
              (2 * Examples.second) "TC_ACT_OK" 10) as (rate & Hd & Hz & _).
  - reflexivity.
  - apply (bool_decide_unpack _). vm_compute. exact I.
  - reflexivity.
  - vm_compute. split; [discriminate | reflexivity].
  - vm_compute. split; [discriminate | reflexivity].
  - exists rate. split; [exact Hd|]. apply Hz. vm_compute. reflexivity.
Defined.

(** ** More on symbol resolution *)

(** X8: a name returned by [getFuncName] is never empty, and it is returned
    only when the info could be read, the kind is a TC kind, the program
    has a BTF id, the instructions could be read, and the name is the
    symbol of the first instruction that carries one. *)
Theorem X8_resolved_name_sound (prog : ebpf.Program) (sym : string) :
  getFuncName prog = Ok sym ->
  sym <> "" /\
  exists info btf insns,
    ebpf.Info prog = Ok info /\
    (ebpf.Type_ info = ebpf.SchedCLS \/ ebpf.Type_ info = ebpf.SchedACT) /\
    ebpf.BTFID info = Some btf /\
    ebpf.Instructions info = Ok insns /\
    first_symbol_carrier insns sym.
Proof.
  unfold getFuncName. destruct (ebpf.Info prog) as [info|e]; [|discriminate].
  destruct (negb (ebpf.Type_ info =? ebpf.SchedCLS) &&
            negb (ebpf.Type_ info =? ebpf.SchedACT)) eqn:Ety; [discriminate|].
  destruct (ebpf.BTFID info) as [btf|] eqn:Ebtf; [|discriminate].
  destruct (ebpf.Instructions info) as [insns|e] eqn:Eins; [|discriminate].
  intros Hs. apply scanSymbols_ok in Hs.
  split; [by destruct Hs as (_ & _ & _ & _ & _ & _ & ?)|].
  exists info, btf, insns. repeat split; try done.
  apply andb_false_iff in Ety as [E|E]; apply negb_false_iff, Z.eqb_eq in E; tauto.
Qed.

Lemma X8_resolved_name_sound_witness :
  "cls_foo" <> "" /\ first_symbol_carrier Examples.clsInsns "cls_foo".
Proof.
  destruct (X8_resolved_name_sound Examples.clsProg "cls_foo")
    as (Hne & info & btf & insns & Hi & _ & _ & Hins & Hfirst); [reflexivity|].
  split; [exact Hne|].
  injection Hi as <-. injection Hins as <-. exact Hfirst.
Defined.

Ltac invert_cause :=
  repeat match goal with
  | H : exists _, _ |- _ => destruct H
  | H : _ /\ _ |- _ => destruct H
  | H : Ok _ = Ok _ |- _ => injection H as H; subst
  | H : Some _ = Some _ |- _ => injection H as H; subst
  | H : _ \/ _ |- _ => destruct H
  end;
  try congruence.

(** X9: the three fixed error messages identify their cause: each is
    returned exactly in its own situation, and never for a failure of
    [Info()] or [Instructions()], whatever text those errors carry. *)
Theorem X9_error_identifies_cause (prog : ebpf.Program) :
  (getFuncName prog = Err errNotTC <->
     exists info, ebpf.Info prog = Ok info /\
       ebpf.Type_ info <> ebpf.SchedCLS /\ ebpf.Type_ info <> ebpf.SchedACT) /\
  (getFuncName prog = Err errNoBTF <->
     exists info, ebpf.Info prog = Ok info /\
       (ebpf.Type_ info = ebpf.SchedCLS \/ ebpf.Type_ info = ebpf.SchedACT) /\
       ebpf.BTFID info = None) /\
  (getFuncName prog = Err errNoEntry <->
     exists info btf insns, ebpf.Info prog = Ok info /\
       (ebpf.Type_ info = ebpf.SchedCLS \/ ebpf.Type_ info = ebpf.SchedACT) /\
       ebpf.BTFID info = Some btf /\ ebpf.Instructions info = Ok insns /\
       Forall (fun i => ebpf.Symbol i = "") insns).
Proof.
  unfold getFuncName. destruct (ebpf.Info prog) as [info|e].
  2:{ split; [|split]; (split; [intros [=] | intros H; invert_cause]). }
  assert (Hk : negb (ebpf.Type_ info =? ebpf.SchedCLS) &&
               negb (ebpf.Type_ info =? ebpf.SchedACT) = true <->
               ebpf.Type_ info <> ebpf.SchedCLS /\ ebpf.Type_ info <> ebpf.SchedACT).
  { rewrite andb_true_iff, !negb_true_iff, !Z.eqb_neq. tauto. }
  destruct (negb _ && negb _).
  { destruct Hk as [Hk _]. specialize (Hk eq_refl).
    split; [|split]; split; try (intros [=]); try (intros H; invert_cause).
    by exists info. }
  assert (Htc : ebpf.Type_ info = ebpf.SchedCLS \/ ebpf.Type_ info = ebpf.SchedACT).
  { destruct (Z.eq_dec (ebpf.Type_ info) ebpf.SchedCLS); [tauto|].
    destruct (Z.eq_dec (ebpf.Type_ info) ebpf.SchedACT); [tauto|].
    destruct Hk as [_ Hk]. by discriminate Hk. }
  assert (Hntc : ~ (ebpf.Type_ info <> ebpf.SchedCLS /\ ebpf.Type_ info <> ebpf.SchedACT))
    by tauto.
  clear Hk.
  destruct (ebpf.BTFID info) as [btf|] eqn:Ebtf.
  2:{ split; [|split]; split; try (intros [=]); try (intros H; invert_cause; tauto).
      by exists info. }
  destruct (ebpf.Instructions info) as [insns|e] eqn:Eins.
  2:{ split; [|split]; split; try (intros [=]); intros H; invert_cause; tauto. }
  split; [|split]; split.
  - intros H. by apply scanSymbols_err in H as [[=] _].
  - intros H. invert_cause; tauto.
  - intros H. by apply scanSymbols_err in H as [[=] _].
  - intros H. invert_cause.
  - intros H. apply scanSymbols_err in H as [_ H]. by exists info, btf, insns.
  - intros (i & b & l & [= <-] & _ & _ & Hl & HF). rewrite Eins in Hl.
    injection Hl as <-. by apply scanSymbols_err.
Qed.

Lemma scanSymbols_app_empty (pre post : list ebpf.Instruction) :
  Forall (fun i => ebpf.Symbol i = "") pre ->
  scanSymbols (pre ++ post) = scanSymbols post.
Proof.
  induction 1 as [|i l Hi _ IH]; [done|]. simpl. by rewrite Hi.
Qed.

Lemma scanSymbols_app_ok (pre post : list ebpf.Instruction) (sym : string) :
  scanSymbols pre = Ok sym -> scanSymbols (pre ++ post) = Ok sym.
Proof.
  induction pre as [|i l IH]; [discriminate|]. simpl.
  by destruct (String.eqb (ebpf.Symbol i) "").
Qed.

(** X10: resolution reads the stream only up to the entry point: leading
    instructions without a symbol do not change the result, and nothing
    that follows the first symbol-carrying instruction does. *)
Theorem X10_resolution_reads_up_to_entry (ty : ebpf.ProgramType) (btf : option Z)
    (pre post : list ebpf.Instruction) :
  (Forall (fun i => ebpf.Symbol i = "") pre ->
   getFuncName (ebpf.mkProgram (Ok (ebpf.mkProgramInfo ty btf (Ok (pre ++ post))))) =
   getFuncName (ebpf.mkProgram (Ok (ebpf.mkProgramInfo ty btf (Ok post))))) /\
  (forall sym,
   getFuncName (ebpf.mkProgram (Ok (ebpf.mkProgramInfo ty btf (Ok pre)))) = Ok sym ->
   getFuncName (ebpf.mkProgram (Ok (ebpf.mkProgramInfo ty btf (Ok (pre ++ post))))) = Ok sym).
Proof.
  unfold getFuncName. cbn [ebpf.Info ebpf.Type_ ebpf.BTFID ebpf.Instructions].
  destruct (negb _ && negb _); [done|]. destruct btf; [|done]. split.
  - apply scanSymbols_app_empty.
  - intros sym. apply scanSymbols_app_ok.
Qed.

Lemma X10_resolution_reads_up_to_entry_witness :
  getFuncName (ebpf.mkProgram (Ok (ebpf.mkProgramInfo ebpf.SchedACT (Some 3)
     (Ok ([ebpf.mkInstruction ""; ebpf.mkInstruction ""] ++ Examples.clsInsns))))) =
  Ok "cls_foo" /\
  getFuncName (ebpf.mkProgram (Ok (ebpf.mkProgramInfo ebpf.SchedACT (Some 3)
     (Ok (Examples.clsInsns ++ [ebpf.mkInstruction "late"]))))) =
  Ok "cls_foo".
Proof.
  destruct (X10_resolution_reads_up_to_entry ebpf.SchedACT (Some 3)
              [ebpf.mkInstruction ""; ebpf.mkInstruction ""] Examples.clsInsns)
    as [Hlead _].
  destruct (X10_resolution_reads_up_to_entry ebpf.SchedACT (Some 3)
              Examples.clsInsns [ebpf.mkInstruction "late"]) as [_ Htail].
  split.
  - rewrite Hlead; [reflexivity|].
    apply Forall_cons_2; [reflexivity|]. apply Forall_cons_2; [reflexivity|].
    apply Forall_nil_2.
  - apply Htail. reflexivity.
Defined.

(** ** More on the session *)

(** Case analysis on the start-up calls of [main], in the order made. *)
Ltac startup_cases env :=
  let Hid := fresh "Hid" in let Hm := fresh "Hm" in let Hs := fresh "Hs" in
  let Hp := fresh "Hp" in let Hf := fresh "Hf" in let Hl := fresh "Hl" in
  let Ha := fresh "Ha" in
  destruct (tcProgID env =? 0) eqn:Hid;
  [ | destruct (RemoveMemlock env) as [[]|?] eqn:Hm;
      [ destruct (loadTcmonitor env) as [[]|?] eqn:Hs;
        [ destruct (NewProgramFromID env (tcProgID env)) as [?prog|?] eqn:Hp;
          [ match goal with
            | Hp' : NewProgramFromID env _ = Ok ?prog |- _ =>
              destruct (getFuncName prog) as [?f|?] eqn:Hf;
              [ match goal with
                | Hf' : getFuncName prog = Ok ?f |- _ =>
                  destruct (LoadAndAssign env prog f) as [|? [?|]] eqn:Hl;
                  [ destruct (AttachTracing env) as [[]|?] eqn:Ha | | ]
                end | ]
            end | ] | ] | ] ].

(** What [main] does in each way start-up can fail. *)
Ltac fatal_run :=
  unfold run, main;
  repeat match goal with
  | H : (tcProgID _ =? 0) = _ |- _ => rewrite H
  | H : RemoveMemlock _ = _ |- _ => rewrite H
  | H : loadTcmonitor _ = _ |- _ => rewrite H
  | H : NewProgramFromID _ _ = _ |- _ => rewrite H
  | H : getFuncName _ = _ |- _ => rewrite H
  | H : LoadAndAssign _ _ _ = _ |- _ => rewrite H
  | H : AttachTracing _ = _ |- _ => rewrite H
  end;
  cbn [mbind M_bind emit defer logFatal trace deferred fst snd app].

Lemma run_started (env : Env) (prog : ebpf.Program) (f : string) :
  (tcProgID env =? 0) = false ->
  RemoveMemlock env = Ok tt -> loadTcmonitor env = Ok tt ->
  NewProgramFromID env (tcProgID env) = Ok prog ->
  getFuncName prog = Ok f ->
  LoadAndAssign env prog f = Loaded ->
  AttachTracing env = Ok tt ->
  exists (r : Res unit) (body : list Event),
    (r = Val tt \/ r = Blocked) /\
    (r = Val tt <-> existsb (fun c => negb (isTick c)) (selects env) = true) /\
    forallb isLoopEvent body = true /\
    run (main env) =
    (([ EvNotifyContext; EvRemoveMemlock; EvLoadSpec;
        EvNewProgramFromID (tcProgID env); EvSetAttachTarget f;
        EvLoadAndAssign; EvAttachTracing; EvPrintTracing (tcProgID env);
        EvNewTicker ] ++ body) ++
     match r with
     | Val _ => [EvTickerStop; EvLinkClose; EvObjClose; EvProgClose; EvStop]
     | _ => []
     end,
     match r with Val _ => Exit 0 | _ => Running end).
Proof.
  intros Hid Hm Hs Hp Hf Hl Ha. apply Z.eqb_neq in Hid.
  unfold run. rewrite (main_started env prog f) by done.
  destruct (pollLoop_inv (selects env) (mkRateState ∅ (startTime env))
              (mkProc [ EvNotifyContext; EvRemoveMemlock; EvLoadSpec;
                        EvNewProgramFromID (tcProgID env); EvSetAttachTarget f;
                        EvLoadAndAssign; EvAttachTracing; EvPrintTracing (tcProgID env);
                        EvNewTicker ]
                      [ EvTickerStop; EvLinkClose; EvObjClose; EvProgClose; EvStop ]))
    as (r & body & -> & Hbody & Hr & Hiff).
  exists r, body. split; [done|]. split; [done|]. split; [done|].
  cbn [trace deferred]. destruct Hr as [-> | ->]; [done|]. by rewrite app_nil_r.
Qed.

(** X11: a run that ends with exit code 1 ended in [log.Fatal]: its last
    event is the fatal message, none of the deferred calls ran (no handle,
    object or link was closed, the signal context was not stopped), the
    ticker was never started and nothing was sampled. *)
Theorem X11_fatal_exit_skips_deferred (env : Env) :
  (run (main env)).2 = Exit 1 ->
  (exists msg, last (run (main env)).1 = Some (EvLogFatal msg)) /\
  times isDeferredCall (run (main env)).1 = 0%nat /\
  times isNewTicker (run (main env)).1 = 0%nat /\
  times isOut (run (main env)).1 = 0%nat.
Proof.
  intros H. startup_cases env.
  2:{ destruct (run_started env prog f) as (r & body & Hr & _ & _ & Heq); try done.
      rewrite Heq in H. by destruct Hr as [-> | ->]. }
  all: clear H; fatal_run; split; [by eexists|done].
Qed.

(** The attach fails after the object was loaded: the run ends with code 1
    and neither the object nor the program handle is closed. *)
Lemma X11_fatal_exit_skips_deferred_witness :
  times isDeferredCall
    (run (main (mkEnv 55 (Ok tt) (Ok tt) (fun _ => Ok Examples.clsProg)
                  (fun _ _ => Loaded) (Err "attach refused") 0 [CtxDone]))).1 = 0%nat.
Proof.
  apply (X11_fatal_exit_skips_deferred
           (mkEnv 55 (Ok tt) (Ok tt) (fun _ => Ok Examples.clsProg)
              (fun _ _ => Loaded) (Err "attach refused") 0 [CtxDone])).
  reflexivity.
Defined.


(** X13: the probe is loaded at most once, and only after the attach target
    was set to the name [getFuncName] resolved for the opened program; the
    attach is attempted only after that load succeeded. *)
Theorem X13_attach_configured_before_load (env : Env) :
  times isLoad (run (main env)).1 <> 0%nat ->
  exists prog f post,
    NewProgramFromID env (tcProgID env) = Ok prog /\
    getFuncName prog = Ok f /\
    (run (main env)).1 =
      [ EvNotifyContext; EvRemoveMemlock; EvLoadSpec; EvNewProgramFromID (tcProgID env);
        EvSetAttachTarget f; EvLoadAndAssign ] ++ post /\
    times isLoad post = 0%nat /\
    (times isAttach (run (main env)).1 <> 0%nat -> LoadAndAssign env prog f = Loaded).
Proof.
  intros H. startup_cases env.
  2:{ destruct (run_started env prog f) as (r & body & Hr & _ & Hbody & Heq); try done.
      exists prog, f,
        ([EvAttachTracing; EvPrintTracing (tcProgID env); EvNewTicker] ++ body ++
         match r with
         | Val _ => [EvTickerStop; EvLinkClose; EvObjClose; EvProgClose; EvStop]
         | _ => []
         end).
      split; [done|]. split; [done|].
      rewrite Heq. cbn [fst]. split; [|split; [|done]].
      - rewrite <- app_assoc. reflexivity.
      - rewrite !times_app, (times_loop_events _ body) by (done || by intros []).
        by destruct Hr as [-> | ->]. }
  all: revert H; fatal_run; try done.
  all: intros _; exists prog, f; eexists; split; [done|]; split; [done|].
  all: split; [reflexivity|]; split; [reflexivity|]; intros Hat.
  all: first [assumption | destruct Hat; reflexivity].
Qed.

Lemma X13_attach_configured_before_load_witness :
  exists post,
    (run (main (Examples.env_of 55 Examples.clsProg [CtxDone]))).1 =
    [ EvNotifyContext; EvRemoveMemlock; EvLoadSpec; EvNewProgramFromID 55;
      EvSetAttachTarget "cls_foo"; EvLoadAndAssign ] ++ post.
Proof.
  destruct (X13_attach_configured_before_load
              (Examples.env_of 55 Examples.clsProg [CtxDone]))
    as (prog & f & post & Hp & Hf & Htr & _).
  - vm_compute. discriminate.
  - exists post. injection Hp as <-. injection Hf as <-. exact Htr.
Defined.

Lemma times_cons (f : Event -> bool) (e : Event) (l : list Event) :
  times f (e :: l) = ((if f e then 1 else 0) + times f l)%nat.
Proof. unfold times. simpl. by destruct (f e). Qed.

Lemma times_outputs (f : Event -> bool) (out : list Output) :
  (forall o, f (EvOut o) = false) -> times f (EvOut <$> out) = 0%nat.
Proof.
  intros Hf. induction out as [|o l IH]; [done|].
  rewrite fmap_cons, times_cons, Hf, IH. done.
Qed.

(** The ticks served before the cancellation case is taken. *)
Lemma pollLoop_ticks_then_done (pre rest : list SelectCase) :
  forallb isTick pre = true -> forall (st : RateState) (p : Proc),
  exists body,
    pollLoop (pre ++ CtxDone :: rest) st p =
      (Val tt, mkProc (trace p ++ body) (deferred p)) /\
    pollLoop (pre ++ [CtxDone]) st p =
      (Val tt, mkProc (trace p ++ body) (deferred p)) /\
    times isClearScreen body = length pre /\
    forallb isLoopEvent body = true.
Proof.
  induction pre as [|c pre IH]; intros Hpre st p.
  - exists [EvOut (Println exiting)]. by rewrite !app_nil_l, !pollLoop_done.
  - cbn [forallb] in Hpre. apply andb_true_iff in Hpre as [Hc Hpre].
    destruct c as [|now ebpfMap]; [done|].
    rewrite <- !app_comm_cons, !pollLoop_tick.
    destruct (IH Hpre (lookupAndPrintStats ebpfMap st now).2
                (mkProc (trace p ++ EvClearScreen ::
                           (EvOut <$> (lookupAndPrintStats ebpfMap st now).1))
                        (deferred p))) as (body & -> & -> & Hn & Hb).
    exists (EvClearScreen :: (EvOut <$> (lookupAndPrintStats ebpfMap st now).1) ++ body).
    cbn [trace deferred]. rewrite <- !app_assoc, <- !app_comm_cons.
    split; [done|]. split; [done|]. split.
    + rewrite times_cons, times_app, times_outputs, Hn by done. done.
    + cbn [forallb isLoopEvent andb]. rewrite forallb_app, Hb, andb_true_r.
      apply forallb_forall. intros e He. apply in_map_iff in He as (o & <- & _). done.
Qed.

(** X14: once every start-up call has succeeded, a schedule of [n] ticks
    followed by the cancellation ends the run with code 0 after clearing
    the screen exactly [n] times; whatever is scheduled after the
    cancellation is never served and changes nothing. *)
Theorem X14_ticks_until_cancellation (env : Env) (prog : ebpf.Program) (f : string)
    (pre rest : list SelectCase) :
  startupOk env prog f ->
  selects env = pre ++ CtxDone :: rest ->
  forallb isTick pre = true ->
  (run (main env)).2 = Exit 0 /\
  times isClearScreen (run (main env)).1 = length pre /\
  run (main env) = run (main (with_selects env (pre ++ [CtxDone]))).
Proof.
  intros (Hid & Hm & Hs & Hp & Hf & Hl & Ha) Hsel Hpre.
  unfold run. rewrite (main_started env prog f) by done.
  rewrite (main_started (with_selects env (pre ++ [CtxDone])) prog f) by done.
  cbn [selects startTime tcProgID with_selects]. rewrite Hsel.
  destruct (pollLoop_ticks_then_done pre rest Hpre (mkRateState ∅ (startTime env))
              (mkProc [ EvNotifyContext; EvRemoveMemlock; EvLoadSpec;
                        EvNewProgramFromID (tcProgID env); EvSetAttachTarget f;
                        EvLoadAndAssign; EvAttachTracing; EvPrintTracing (tcProgID env);
                        EvNewTicker ]
                      [ EvTickerStop; EvLinkClose; EvObjClose; EvProgClose; EvStop ]))
    as (body & -> & -> & Hn & _).
  cbn [fst snd trace deferred]. split; [done|]. split; [|done].
  rewrite !times_app, Hn. done.
Qed.

Lemma X14_ticks_until_cancellation_witness :
  times isClearScreen
    (run (main (Examples.env_of 55 Examples.clsProg
                  [TickerC Examples.second (Examples.table 10);
                   TickerC (2 * Examples.second) (Examples.table 20);
                   CtxDone;
                   TickerC (3 * Examples.second) (Examples.table 30)]))).1 = 2%nat.
Proof.
  apply (X14_ticks_until_cancellation
           (Examples.env_of 55 Examples.clsProg
              [TickerC Examples.second (Examples.table 10);
               TickerC (2 * Examples.second) (Examples.table 20);
               CtxDone;
               TickerC (3 * Examples.second) (Examples.table 30)])
           Examples.clsProg "cls_foo"
           [TickerC Examples.second (Examples.table 10);
            TickerC (2 * Examples.second) (Examples.table 20)]
           [TickerC (3 * Examples.second) (Examples.table 30)]).
  - unfold startupOk. repeat split; try reflexivity. discriminate.
  - reflexivity.
  - reflexivity.
Defined.

Lemma okEvent_outputs (out : list Output) :
  forallb okRate out = true -> forallb okEvent (EvOut <$> out) = true.
Proof.
  induction out as [|o l IH]; [done|]. cbn [forallb fmap list_fmap okEvent].
  intros [Ho Hl]%andb_true_iff. by rewrite Ho, IH.
Qed.

(** Along a schedule whose clock never goes back the loop writes only
    finite rates that are not negative. *)
Lemma pollLoop_rates (sel : list SelectCase) :
  forall (st : RateState) (p : Proc) (last : time.Time),
  prevTime st <= last -> clockMonotone last sel ->
  forallb okEvent (trace p) = true ->
  forallb okEvent (trace (pollLoop sel st p).2) = true.
Proof.
  induction sel as [|c rest IH]; intros st p last Hle Hmono Hp; [done|].
  destruct c as [|now ebpfMap].
  - rewrite pollLoop_done. cbn [snd trace]. by rewrite forallb_app, Hp.
  - destruct Hmono as [Hnow Hmono]. rewrite pollLoop_tick.
    apply (IH _ _ now).
    + apply prevTime_tick_le. lia.
    + done.
    + cbn [trace]. rewrite forallb_app, Hp. cbn [forallb okEvent andb].
      apply okEvent_outputs, okRate_tick. lia.
Qed.

(** X15: over a whole session whose clock never goes back (the reading at
    each tick is at least the previous one, starting from the reading at
    start-up) every rate the process prints is a finite number that is not
    negative: never NaN, never infinite, never [-0.0]; this holds for any
    counts the table returns and any read failures. *)
Theorem X15_session_rates_finite_nonneg (env : Env) :
  clockMonotone (startTime env) (selects env) ->
  forallb okEvent (run (main env)).1 = true.
Proof.
  intros Hmono. startup_cases env.
  2:{ apply Z.eqb_neq in Hid. unfold run. rewrite (main_started env prog f) by done.
      pose proof (pollLoop_rates (selects env) (mkRateState ∅ (startTime env))
                    (mkProc [ EvNotifyContext; EvRemoveMemlock; EvLoadSpec;
                              EvNewProgramFromID (tcProgID env); EvSetAttachTarget f;
                              EvLoadAndAssign; EvAttachTracing;
                              EvPrintTracing (tcProgID env); EvNewTicker ]
                            [ EvTickerStop; EvLinkClose; EvObjClose; EvProgClose; EvStop ])
                    (startTime env) (Z.le_refl _) Hmono eq_refl) as Hrates.
      destruct (pollLoop_inv (selects env) (mkRateState ∅ (startTime env))
                  (mkProc [ EvNotifyContext; EvRemoveMemlock; EvLoadSpec;
                            EvNewProgramFromID (tcProgID env); EvSetAttachTarget f;
                            EvLoadAndAssign; EvAttachTracing;
                            EvPrintTracing (tcProgID env); EvNewTicker ]
                          [ EvTickerStop; EvLinkClose; EvObjClose; EvProgClose; EvStop ]))
        as (r & body & Heq & _ & Hr & _).
      rewrite Heq in Hrates |- *. cbn [snd trace deferred] in Hrates |- *.
      destruct Hr as [-> | ->]; cbn [fst]; [|done].
      by rewrite forallb_app, Hrates. }
  all: fatal_run; reflexivity.
Qed.

Lemma X15_session_rates_finite_nonneg_witness :
  forallb okEvent
    (run (main (Examples.env_of 55 Examples.clsProg
                  [TickerC Examples.second (Examples.table 10);
                   TickerC (2 * Examples.second) (Examples.table 5);
                   TickerC (2 * Examples.second) (Examples.table_failing 7 20);
                   CtxDone]))).1 = true.
Proof.
  apply (X15_session_rates_finite_nonneg
           (Examples.env_of 55 Examples.clsProg
              [TickerC Examples.second (Examples.table 10);
               TickerC (2 * Examples.second) (Examples.table 5);
               TickerC (2 * Examples.second) (Examples.table_failing 7 20);
               CtxDone])).
  vm_compute. repeat split; discriminate.
Defined.

(** ** The counts-only monitor *)

Lemma printCounts_app (ebpfMap : Map) (keys : gmap string Z) (pre post : list string) :
  (Raw.printCounts ebpfMap keys pre).2 = Val tt ->
  Raw.printCounts ebpfMap keys (pre ++ post) =
  ((Raw.printCounts ebpfMap keys pre).1 ++ (Raw.printCounts ebpfMap keys post).1,
   (Raw.printCounts ebpfMap keys post).2).
Proof.
  induction pre as [|a l IH]; simpl; [intros _; by destruct (Raw.printCounts _ _ post)|].
  destruct (ebpfMap (map_get keys a)); simpl; [|discriminate].
  intros H. by rewrite IH.
Qed.

Lemma printCounts_all_ok (ebpfMap : Map) (keys : gmap string Z) (keyOrder : list string) :
  Forall (fun a => exists v, ebpfMap (map_get keys a) = Ok v) keyOrder ->
  (Raw.printCounts ebpfMap keys keyOrder).2 = Val tt /\
  Raw.counts (Raw.printCounts ebpfMap keys keyOrder).1 =
    omap (fun a => match ebpfMap (map_get keys a) with
                   | Ok v => Some (a, v) | Err _ => None end) keyOrder /\
  length (Raw.printCounts ebpfMap keys keyOrder).1 = length keyOrder.
Proof.
  induction 1 as [|a l [v Hv] _ (IH1 & IH2 & IH3)]; [done|].
  simpl. rewrite Hv. cbn [fst snd length]. unfold Raw.counts in *.
  cbn [omap list_omap Raw.count]. by rewrite IH2, IH3.
Qed.

(** X16: in the counts-only monitor a failed lookup is fatal: with the first
    failing key at some position of [keyOrder], the call prints the title
    and the counts of the keys before it, in order, reports that error and
    exits with code 1; no later key is read or printed. *)
Theorem X16_raw_first_failure_is_fatal (ebpfMap : Map) (keys : gmap string Z)
    (pre post : list string) (action title err : string) :
  Forall (fun a => exists v, ebpfMap (map_get keys a) = Ok v) pre ->
  ebpfMap (map_get keys action) = Err err ->
  exists lines,
    Raw.lookupAndPrintStats ebpfMap keys (pre ++ action :: post) title =
      (Raw.Println (nl +:+ title +:+ ":") :: lines ++ [Raw.LogFatal err], Exited 1) /\
    length lines = length pre /\
    Raw.counts lines =
      omap (fun a => match ebpfMap (map_get keys a) with
                     | Ok v => Some (a, v) | Err _ => None end) pre.
Proof.
  intros Hpre Herr. destruct (printCounts_all_ok _ _ _ Hpre) as (H1 & H2 & H3).
  exists (Raw.printCounts ebpfMap keys pre).1.
  unfold Raw.lookupAndPrintStats. rewrite printCounts_app by done.
  simpl. rewrite Herr. done.
Qed.

Lemma X16_raw_first_failure_is_fatal_witness :
  Raw.lookupAndPrintStats (Examples.table_failing 2 10) tcKeys tcKeyOrder "TC Actions" =
  ([ Raw.Println header; Raw.PrintCount "TC_ACT_OK" 10;
     Raw.PrintCount "TC_ACT_RECLASSIFY" 11; Raw.LogFatal "lookup failed" ],
   Exited 1).
Proof.
  destruct (X16_raw_first_failure_is_fatal (Examples.table_failing 2 10) tcKeys
              ["TC_ACT_OK"; "TC_ACT_RECLASSIFY"]
              ["TC_ACT_PIPE"; "TC_ACT_STOLEN"; "TC_ACT_QUEUED"; "TC_ACT_REPEAT";
               "TC_ACT_REDIRECT"; "TC_ACT_TRAP"]
              "TC_ACT_SHOT" "TC Actions" "lookup failed") as (lines & Heq & _ & _).
  - apply Forall_cons_2; [by exists 10|]. apply Forall_cons_2; [by exists 11|].
    apply Forall_nil_2.
  - reflexivity.
  - reflexivity.
Defined.

(** X17: the two monitors agree on what they show when nothing fails: on a
    tick with non-zero elapsed time on which every read succeeds, the
    (name, count) pairs of the rate monitor's snapshot are, in the same
    order, the pairs the counts-only monitor prints for the same table, and
    the counts-only call returns normally. *)
Theorem X17_monitors_agree_on_counts (ebpfMap : Map) (st : RateState) (now : time.Time)
    (title : string) :
  time.Sub now (prevTime st) <> 0 ->
  Forall (fun a => exists v, ebpfMap (map_get tcKeys a) = Ok v) tcKeyOrder ->
  (Raw.lookupAndPrintStats ebpfMap tcKeys tcKeyOrder title).2 = Val tt /\
  (fun e => (e.1.1, e.1.2)) <$> snapshot (lookupAndPrintStats ebpfMap st now).1 =
  Raw.counts (Raw.lookupAndPrintStats ebpfMap tcKeys tcKeyOrder title).1.
Proof.
  intros Hnz Hall. destruct (printCounts_all_ok _ _ _ Hall) as (H1 & H2 & _).
  unfold Raw.lookupAndPrintStats. cbn [fst snd]. split; [done|].
  change (Raw.counts (Raw.Println ?s :: ?l)) with (Raw.counts l). rewrite H2.
  rewrite lookupAndPrintStats_nonzero by done. cbn [fst].
  change (snapshot (Println header :: ?l)) with (snapshot l).
  clear. unfold snapshot. induction tcKeyOrder as [|a l IH]; [done|].
  rewrite fmap_cons. cbn [omap list_omap]. unfold sampleOutput at 1.
  destruct (ebpfMap (map_get tcKeys a)); cbn [stat]; [|done].
  rewrite fmap_cons. cbn [fst snd]. by rewrite IH.
Qed.

Lemma X17_monitors_agree_on_counts_witness :
  (fun e => (e.1.1, e.1.2)) <$> snapshot Examples.tick1.1 =
  Raw.counts (Raw.lookupAndPrintStats (Examples.table 10) tcKeys tcKeyOrder "TC Actions").1.
Proof.
  apply (X17_monitors_agree_on_counts (Examples.table 10) Examples.st0 Examples.second
           "TC Actions").
  - vm_compute. discriminate.
  - apply Forall_forall. intros a _. by eexists.
Defined.

(** ** Keys do not interfere *)

Lemma displayed_sampleOutput_agree (m1 m2 : Map) (deltaTime : float64)
    (p1 p2 : gmap string Z) (action : string) (actions : list string) :
  m1 (map_get tcKeys action) = m2 (map_get tcKeys action) ->
  p1 !! action = p2 !! action ->
  displayed action (sampleOutput m1 deltaTime p1 <$> actions) =
  displayed action (sampleOutput m2 deltaTime p2 <$> actions).
Proof.
  intros Hm Hp. induction actions as [|h l IH]; [done|].
  rewrite !fmap_cons. destruct (decide (h = action)) as [->|Hne].
  - assert (Hg : map_get p1 action = map_get p2 action) by (unfold map_get; by rewrite Hp).
    unfold sampleOutput at 1 3. rewrite Hm, Hg.
    destruct (m2 (map_get tcKeys action)); cbn [displayed]; [|done].
    by rewrite String.eqb_refl.
  - apply String.eqb_neq in Hne. unfold sampleOutput at 1 3.
    destruct (m1 (map_get tcKeys h)), (m2 (map_get tcKeys h)); cbn [displayed];
      rewrite ?Hne; done.
Qed.

(** X18: the entry of a key depends on nothing but that key: two calls at
    the same time, from states with the same timestamp, whose tables agree
    on the key and whose stored counts agree on it, display the same entry
    for it, however the other keys' counts, failures and stored counts
    differ. *)
Theorem X18_keys_do_not_interfere (m1 m2 : Map) (st1 st2 : RateState)
    (now : time.Time) (action : string) :
  prevTime st1 = prevTime st2 ->
  m1 (map_get tcKeys action) = m2 (map_get tcKeys action) ->
  prevValues st1 !! action = prevValues st2 !! action ->
  displayed action (lookupAndPrintStats m1 st1 now).1 =
  displayed action (lookupAndPrintStats m2 st2 now).1.
Proof.
  intros Ht Hm Hp.
  destruct (Z.eq_dec (time.Sub now (prevTime st1)) 0) as [Hz|Hnz].
  - rewrite !lookupAndPrintStats_zero by congruence. done.
  - rewrite !lookupAndPrintStats_nonzero by congruence. cbn [fst displayed].
    rewrite <- Ht. by apply displayed_sampleOutput_agree.
Qed.

(** The entry of TC_ACT_TRAP is the same whether or not the read of key 7
    fails on that tick. *)
Lemma X18_keys_do_not_interfere_witness :
  displayed "TC_ACT_TRAP" Examples.tick2_failing.1 =
  displayed "TC_ACT_TRAP"
    (lookupAndPrintStats (Examples.table 20) Examples.tick1.2 (2 * Examples.second)).1.
Proof.
  apply (X18_keys_do_not_interfere (Examples.table_failing 7 20) (Examples.table 20)
           Examples.tick1.2 Examples.tick1.2 (2 * Examples.second) "TC_ACT_TRAP");
    reflexivity.
Defined.
